(** * infoscreen.py: button/menu state machine, heartbeat LED and display loop

    A shallow embedding of [src/infoscreen.py].

    - Readings of [time.time()] are rational numbers of seconds (type [Q]),
      and their differences are exact: the rounding of float arithmetic is
      not modelled.  Every call site of [time.time()] gets a reading of its
      own, because the script reads the clock again at each use.
    - The module-level variables [LED_state], [disp_timer], [menu_state] and
      [last_second] form the record [globals].
    - Code runs in a small monad [M] that threads the globals, logs every
      call made to the outside (display, GPIO, host telemetry, sleep), and
      carries Python's abrupt completions ([break], a raised exception).
      The globals are kept when an exception is raised, as in Python.
    - What the outside world answers during one pass of the loop is a
      [world]: which display and GPIO calls raise, what the telemetry
      queries return. *)

From Stdlib Require Import ZArith QArith Qround Bool List String Lia.
Import ListNotations.

Local Open Scope Z_scope.

(** ** Numbers *)

(** Python's [int(x)] on a float: truncation toward zero. *)
Definition py_int (x : Q) : Z := Z.quot (Qnum x) (Zpos (Qden x)).

(** [a < b] on readings, as a boolean. *)
Definition Qlt_bool (a b : Q) : bool := negb (Qle_bool b a).

(** ** Module constants (lines 94-104) *)

Definition chip_path : string := "/dev/gpiochip0".
Definition BTN_PIN : Z := 27.
Definition LED_PIN : Z := 22.
Definition DISP_TIMEOUT : Q := 15.

(** ** Module-level variables *)

Record globals := mkGlobals {
  LED_state : bool;
  disp_timer : Q;
  menu_state : Z;     (* 0 = Info; 1 = Page 1; 2 = Page 2 *)
  last_second : Z
}.

(** Values after the module-level assignments of lines 97, 100, 104, 176. *)
Definition initial_globals : globals :=
  {| LED_state := false; disp_timer := 0; menu_state := 0; last_second := -1 |}.

Definition set_LED_state (v : bool) (g : globals) : globals :=
  {| LED_state := v; disp_timer := disp_timer g;
     menu_state := menu_state g; last_second := last_second g |}.

Definition set_disp_timer (v : Q) (g : globals) : globals :=
  {| LED_state := LED_state g; disp_timer := v;
     menu_state := menu_state g; last_second := last_second g |}.

Definition set_menu_state (v : Z) (g : globals) : globals :=
  {| LED_state := LED_state g; disp_timer := disp_timer g;
     menu_state := v; last_second := last_second g |}.

Definition set_last_second (v : Z) (g : globals) : globals :=
  {| LED_state := LED_state g; disp_timer := disp_timer g;
     menu_state := menu_state g; last_second := v |}.

(** ** The outside world *)

(** Host telemetry queries of the two live screens. *)
Inductive query :=
| q_hostname      (* subprocess.check_output("hostname") *)
| q_ip            (* subprocess.check_output("hostname -I | cut ...") *)
| q_cpu_percent   (* "{:3.0f}".format(psutil.cpu_percent()) *)
| q_mem_percent   (* "{:2.0f}".format(psutil.virtual_memory().percent) *)
| q_uptime        (* datetime.now() - fromtimestamp(psutil.boot_time()) *)
| q_load_avg      (* ["%.2f"%x for x in psutil.getloadavg()] *)
| q_cpu_temp.     (* float(subprocess.getoutput("vcgencmd measure_temp")...) *)

(** Calls that leave the script. *)
Inductive call :=
| disp_clear
| disp_show
| disp_hide
| canvas_enter                          (* with canvas(disp) as draw: *)
| draw_rectangle
| draw_text (x y : Z) (text : string)
| canvas_flush                          (* leaving the with block normally *)
| ask (q : query)
| decode_utf8 (q : query)               (* HOSTNAME.decode / IP.decode *)
| set_line_value (line : Z) (value : bool)
| sleep (seconds : Q)
| btn_press_called                      (* the watcher invokes btn_press *)
| read_edge_events
| gpio_cleanup.                         (* GPIO.cleanup(), line 270 *)

Inductive exn :=
| DisplayError
| TelemetryError (q : query)
| DecodeError (q : query)
| GpioError.

(** One pass of the loop sees one [world]. A telemetry answer [None] means
    the query raises; numbers arrive already formatted. *)
Record world := mkWorld {
  display_ok : call -> bool;
  gpio_ok : bool;
  hostname_out : option string;
  ip_out : option string;
  utf8 : string -> option string;
  cpu_percent : option string;
  mem_percent : option string;
  uptime : option string;
  load_avg : option (list string);
  cpu_temp : option string
}.

(** ** The monad *)

Inductive signal :=
| Broke
| Raised (e : exn).

Inductive completion (A : Type) :=
| Normal (a : A)
| Abrupt (s : signal).
Arguments Normal {A} a.
Arguments Abrupt {A} s.

Record outcome (A : Type) := mkOutcome {
  calls : list call;
  store : globals;
  how : completion A
}.
Arguments mkOutcome {A}.
Arguments calls {A}.
Arguments store {A}.
Arguments how {A}.

Definition M (A : Type) : Type := globals -> outcome A.

Definition ret {A} (a : A) : M A :=
  fun g => mkOutcome [] g (Normal a).

Definition bind {A B} (m : M A) (k : A -> M B) : M B :=
  fun g =>
    let r := m g in
    match how r with
    | Normal a =>
        let r' := k a (store r) in
        mkOutcome (calls r ++ calls r') (store r') (how r')
    | Abrupt s => mkOutcome (calls r) (store r) (Abrupt s)
    end.

Declare Scope py_scope.
Delimit Scope py_scope with py.
Notation "x <- m ;; k" := (bind m (fun x => k))
  (at level 61, m at next level, right associativity) : py_scope.
Notation "m ;; k" := (bind m (fun _ => k))
  (at level 61, right associativity) : py_scope.
Local Open Scope py_scope.

Definition read {A} (field : globals -> A) : M A :=
  fun g => mkOutcome [] g (Normal (field g)).

Definition assign (upd : globals -> globals) : M unit :=
  fun g => mkOutcome [] (upd g) (Normal tt).

(** A call to the outside that cannot raise here; it is only logged. *)
Definition note (c : call) : M unit :=
  fun g => mkOutcome [c] g (Normal tt).

(** A call to the outside: logged, then it raises [e] unless [ok]. *)
Definition extern (c : call) (ok : bool) (e : exn) : M unit :=
  fun g => mkOutcome [c] g (if ok then Normal tt else Abrupt (Raised e)).

(** A call to the outside that gives a value, or raises [e]. *)
Definition extern_value {A} (c : call) (answer : option A) (e : exn) : M A :=
  fun g => mkOutcome [c] g
             match answer with
             | Some a => Normal a
             | None => Abrupt (Raised e)
             end.

(** [try: body / except: pass]: the bare [except] swallows every exception;
    [break] is not an exception and passes through. *)
Definition try_except_pass (body : M unit) : M unit :=
  fun g =>
    let r := body g in
    match how r with
    | Abrupt (Raised _) => mkOutcome (calls r) (store r) (Normal tt)
    | _ => r
    end.

Definition when (b : bool) (body : M unit) : M unit :=
  if b then body else ret tt.

(** ** Button handler (lines 156-165) *)

(** The two readings of [time.time()] in [btn_press]: line 159, line 165. *)
Record press_clock := mkPress { t_check : Q; t_stamp : Q }.

Definition btn_press (pc : press_clock) : M unit :=
  timer <- read disp_timer ;;
  (if Qle_bool DISP_TIMEOUT (t_check pc - timer) then
     assign (set_menu_state 0)
   else
     m <- read menu_state ;;
     assign (set_menu_state (m + 1)) ;;
     m' <- read menu_state ;;
     when (m' =? 3) (assign (set_menu_state 0))) ;;
  assign (set_disp_timer (t_stamp pc)).

(** ** Signal watcher (lines 121-138) *)

Inductive edge_type := RISING_EDGE | FALLING_EDGE.

Record edge_event := mkEdge { line_offset : Z; event_type : edge_type }.

Definition is_falling (t : edge_type) : bool :=
  match t with FALLING_EDGE => true | RISING_EDGE => false end.

(** A descriptor that [poll.poll()] reports ready: the cancellation
    descriptor, or the line request with the edge events that
    [request.read_edge_events()] then yields.  Each event comes with the
    clock readings a call of [btn_press] made for it would take. *)
Inductive ready_fd :=
| done_fd
| request_fd (events : list (edge_event * press_clock)).

(** [for event in request.read_edge_events(): ...] (lines 135-138). *)
Fixpoint for_events (events : list (edge_event * press_clock)) : M unit :=
  match events with
  | [] => ret tt
  | (event, pc) :: rest =>
      when ((line_offset event =? BTN_PIN) && is_falling (event_type event))
           (note btn_press_called ;; btn_press pc) ;;
      for_events rest
  end.

(** [for fd, _event in poll.poll(): ...] (lines 130-138); the answer is
    [true] when the body executed [return]. *)
Fixpoint for_ready (fds : list ready_fd) : M bool :=
  match fds with
  | [] => ret false
  | done_fd :: _ => ret true
  | request_fd events :: rest =>
      note read_edge_events ;;
      for_events events ;;
      for_ready rest
  end.

(** [while True:] of line 129 over the successive wake-ups of
    [poll.poll()]; [false] means the watcher is blocked in [poll] again. *)
Fixpoint async_watch_line_value (wakeups : list (list ready_fd)) : M bool :=
  match wakeups with
  | [] => ret false
  | fds :: later =>
      finished <- for_ready fds ;;
      if finished then ret true else async_watch_line_value later
  end.

(** ** Foreground loop (lines 192-268) *)

(** The three readings of [time.time()] in one pass: lines 197, 203, 209. *)
Record loop_clock := mkClock { t_led : Q; t_second : Q; t_active : Q }.

Definition disp (w : world) (c : call) : M unit :=
  extern c (display_ok w c) DisplayError.

Definition telemetry {A} (q : query) (answer : option A) : M A :=
  extern_value (ask q) answer (TelemetryError q).

Definition decode (w : world) (q : query) (bytes : string) : M string :=
  extern_value (decode_utf8 q) (utf8 w bytes) (DecodeError q).

(** Lines 197-199. *)
Definition led_step (w : world) (now : Q) : M unit :=
  led <- read LED_state ;;
  when (negb (Z.b2z led =? py_int now mod 2))
    (assign (set_LED_state (negb led)) ;;
     led' <- read LED_state ;;
     extern (set_line_value LED_PIN led') (gpio_ok w) GpioError).

(** Lines 217-235. *)
Definition screen_info (w : world) : M unit :=
  HOSTNAME <- telemetry q_hostname (hostname_out w) ;;
  IP <- telemetry q_ip (ip_out w) ;;
  CPU <- telemetry q_cpu_percent (cpu_percent w) ;;
  MemUsage <- telemetry q_mem_percent (mem_percent w) ;;
  try_except_pass
    (disp w canvas_enter ;;
     name <- decode w q_hostname HOSTNAME ;;
     disp w (draw_text 0 0 ("NAME: " ++ name)) ;;
     addr <- decode w q_ip IP ;;
     disp w (draw_text 0 11 ("IP  : " ++ addr)) ;;
     disp w (draw_text 0 22 ("CPU : " ++ CPU ++ "% | MEM: " ++ MemUsage ++ "%")) ;;
     disp w canvas_flush).

(** Lines 238-248. *)
Definition screen_page1 (w : world) : M unit :=
  up <- telemetry q_uptime (uptime w) ;;
  load <- telemetry q_load_avg (load_avg w) ;;
  cpu_T <- telemetry q_cpu_temp (cpu_temp w) ;;
  try_except_pass
    (disp w canvas_enter ;;
     disp w (draw_text 0 0 ("UP  : " ++ up)) ;;
     disp w (draw_text 0 11 ("LOAD: " ++ String.concat "," load)) ;;
     disp w (draw_text 0 22 ("TEMP: " ++ cpu_T ++ " Â°C")) ;;
     disp w canvas_flush).

(** Lines 251-259. *)
Definition screen_page2 (w : world) : M unit :=
  try_except_pass
    (disp w canvas_enter ;;
     disp w (draw_text 0 0 ".......Menu 2.......") ;;
     disp w (draw_text 0 11 "012345678901234567890123") ;;
     disp w (draw_text 0 22 "--No info specified--") ;;
     disp w canvas_flush).

(** Lines 211-259: the display is active. *)
Definition active_branch (w : world) : M unit :=
  try_except_pass (disp w disp_show) ;;
  m0 <- read menu_state ;;
  when (m0 =? 0) (screen_info w) ;;
  m1 <- read menu_state ;;
  when (m1 =? 1) (screen_page1 w) ;;
  m2 <- read menu_state ;;
  when (m2 =? 2) (screen_page2 w).

(** Lines 262-266: the display has timed out. *)
Definition idle_branch (w : world) : M unit :=
  try_except_pass (disp w disp_clear ;; disp w disp_hide).

(** Lines 203-266. *)
Definition display_step (w : world) (now_second now_active : Q) : M unit :=
  timer <- read disp_timer ;;
  let this_second := py_int (now_second - timer) in
  last <- read last_second ;;
  when (negb (this_second =? last))
    (assign (set_last_second this_second) ;;
     timer' <- read disp_timer ;;
     if Qlt_bool (now_active - timer') DISP_TIMEOUT then active_branch w
     else idle_branch w).

(** The body of [while True:] (lines 194-268). *)
Definition loop_body (w : world) (clk : loop_clock) : M unit :=
  led_step w (t_led clk) ;;
  display_step w (t_second clk) (t_active clk) ;;
  note (sleep (1 # 5)).

(** The condition of [while True:] (line 192). *)
Definition loop_condition (g : globals) : bool := true.

(** ** Start-up (lines 168-176) *)

Definition startup (w : world) : M unit :=
  disp w disp_clear ;;
  disp w canvas_enter ;;
  disp w draw_rectangle ;;
  disp w (draw_text 11 9 "Infoscreen Started") ;;
  disp w canvas_flush ;;
  note (sleep 3) ;;
  disp w disp_clear ;;
  assign (set_last_second (-1)).

(** ** The script as a whole

    The main thread and the watcher thread share the globals.  A run is a
    list of events: a button press handled by the watcher thread, or one
    pass of the main thread through [while True:].  After the loop comes
    [GPIO.cleanup()] (line 270). *)

Inductive main_status :=
| Looping
| Exited
| Crashed (e : exn).

Record system := mkSystem {
  sys_globals : globals;
  sys_log : list call;
  sys_main : main_status
}.

Inductive sys_event :=
| press (pc : press_clock)
| pass (w : world) (clk : loop_clock).

(** The statement after the loop. *)
Definition after_loop (s : system) : system :=
  mkSystem (sys_globals s) (sys_log s ++ [gpio_cleanup]) Exited.

Definition main_pass (w : world) (clk : loop_clock) (s : system) : system :=
  match sys_main s with
  | Looping =>
      if loop_condition (sys_globals s) then
        let r := loop_body w clk (sys_globals s) in
        let s' := mkSystem (store r) (sys_log s ++ calls r) Looping in
        match how r with
        | Normal _ => s'
        | Abrupt Broke => after_loop s'
        | Abrupt (Raised e) =>
            mkSystem (sys_globals s') (sys_log s') (Crashed e)
        end
      else after_loop s
  | _ => s
  end.

Definition watcher_press (pc : press_clock) (s : system) : system :=
  let r := btn_press pc (sys_globals s) in
  mkSystem (store r) (sys_log s ++ calls r) (sys_main s).

Definition sys_step (s : system) (ev : sys_event) : system :=
  match ev with
  | press pc => watcher_press pc s
  | pass w clk => main_pass w clk s
  end.

Definition run (evs : list sys_event) (s : system) : system :=
  fold_left sys_step evs s.

(** The system once the module-level code before the loop has run. *)
Definition boot (w : world) : system :=
  let r := startup w initial_globals in
  mkSystem (store r) (calls r)
    match how r with
    | Normal _ => Looping
    | Abrupt Broke => Exited
    | Abrupt (Raised e) => Crashed e
    end.

(** * Observations and predicates used in the statements *)

Definition is_break (s : signal) : bool :=
  match s with Broke => true | Raised _ => false end.

Definition is_display_error (s : signal) : bool :=
  match s with Raised DisplayError => true | _ => false end.

(** [m] leaves the part [field] of the globals as it was. *)
Definition keeps {F A} (field : globals -> F) (m : M A) : Prop :=
  forall g, field (store (m g)) = field g.

(** [m] never completes with a signal that [bad] selects. *)
Definition avoids {A} (bad : signal -> bool) (m : M A) : Prop :=
  forall g s, how (m g) = Abrupt s -> bad s = false.

(** [m] only makes calls that [allowed] selects. *)
Definition emits_only {A} (allowed : call -> bool) (m : M A) : Prop :=
  forall g c, In c (calls (m g)) -> allowed c = true.

(** [m1] and [m2] end in the same globals, the same way. *)
Definition agree {A} (m1 m2 : M A) : Prop :=
  forall g, store (m1 g) = store (m2 g) /\ how (m1 g) = how (m2 g).

Definition is_callback (c : call) : bool :=
  match c with btn_press_called => true | _ => false end.

Definition falling_on_button (ep : edge_event * press_clock) : bool :=
  (line_offset (fst ep) =? BTN_PIN) && is_falling (event_type (fst ep)).

(** A world in which nothing fails, on a host called "pi". *)
Definition fair_world : world :=
  {| display_ok := fun _ => true;
     gpio_ok := true;
     hostname_out := Some "pi"%string;
     ip_out := Some "192.168.1.20"%string;
     utf8 := fun bytes => Some bytes;
     cpu_percent := Some "  7"%string;
     mem_percent := Some "41"%string;
     uptime := Some "1:02:03"%string;
     load_avg := Some ["0.10"; "0.20"; "0.30"]%string;
     cpu_temp := Some "48.3"%string |}.

(** Whether the LED step of a pass at [now] flips the LED. *)
Definition led_flips_at (w : world) (now : Q) (g : globals) : bool :=
  negb (Bool.eqb (LED_state (store (led_step w now g))) (LED_state g)).

(** Number of flips made by the LED steps of successive passes. *)
Fixpoint led_flip_count (w : world) (readings : list Q) (g : globals) : nat :=
  match readings with
  | [] => 0%nat
  | now :: rest =>
      ((if led_flips_at w now g then 1 else 0) +
       led_flip_count w rest (store (led_step w now g)))%nat
  end.

(** The globals after the LED steps of successive passes. *)
Definition led_run (w : world) (readings : list Q) (g : globals) : globals :=
  fold_left (fun g now => store (led_step w now g)) readings g.

(** The LED as an observer finds it at time [s]: the passes whose reading
    is at most [s] have run. *)
Definition led_seen (w : world) (readings : list Q) (g : globals) (s : Q)
  : bool :=
  LED_state (led_run w (filter (fun t => Qle_bool t s) readings) g).

(** Number of changes in a series of observations. *)
Fixpoint changes (seen : list bool) : nat :=
  match seen with
  | a :: (b :: _) as rest =>
      ((if Bool.eqb a b then 0 else 1) + changes rest)%nat
  | _ => 0%nat
  end.

Definition observed_flips (w : world) (readings : list Q) (g : globals)
  (samples : list Q) : nat :=
  changes (map (led_seen w readings g) samples).

(** Every gap between neighbours of [ts] lies in [lo, hi]. *)
Fixpoint gaps_within (lo hi : Q) (ts : list Q) : bool :=
  match ts with
  | a :: (b :: _) as rest =>
      Qle_bool lo (b - a) && Qle_bool (b - a) hi && gaps_within lo hi rest
  | _ => true
  end.

(** Readings that never go back and advance by less than a second. *)
Fixpoint steady (t : Q) (ts : list Q) : Prop :=
  match ts with
  | [] => True
  | t' :: rest => (t <= t' /\ t' < t + 1)%Q /\ steady t' rest
  end.

(** A wall-clock reading: [ms] milliseconds after 1700000000 s. *)
Definition at_epoch (ms : Z) : Q := inject_Z 1700000000 + Qmake ms 1000.

Definition is_draw (c : call) : bool :=
  match c with
  | canvas_enter | draw_rectangle | draw_text _ _ _ | canvas_flush => true
  | _ => false
  end.

(** [text] begins with [p]. *)
Fixpoint starts_with (p text : string) : bool :=
  match p with
  | EmptyString => true
  | String a p' =>
      match text with
      | EmptyString => false
      | String b text' => Ascii.eqb a b && starts_with p' text'
      end
  end.

(** Which screen a top row announces. *)
Definition label_of (text : string) : option Z :=
  if starts_with "NAME: " text then Some 0
  else if starts_with "UP  : " text then Some 1
  else if starts_with ".......Menu 2......." text then Some 2
  else None.

(** The screen whose top row is the first text drawn at (0, 0). *)
Fixpoint screen_drawn (cs : list call) : option Z :=
  match cs with
  | [] => None
  | draw_text 0 0 text :: _ => label_of text
  | _ :: rest => screen_drawn rest
  end.

Definition is_flush (c : call) : bool :=
  match c with canvas_flush => true | _ => false end.

(** The screen that reached the panel: drawn, and flushed to the device. *)
Definition screen_rendered (cs : list call) : option Z :=
  if existsb is_flush cs then screen_drawn cs else None.

(** Every display call succeeds and the queries of screen [m] answer. *)
Definition answers (w : world) (m : Z) : Prop :=
  (forall c, display_ok w c = true) /\
  match m with
  | 0 => exists h i,
           hostname_out w = Some h /\ ip_out w = Some i /\
           utf8 w h <> None /\ utf8 w i <> None /\
           cpu_percent w <> None /\ mem_percent w <> None
  | 1 => uptime w <> None /\ load_avg w <> None /\ cpu_temp w <> None
  | _ => True
  end.

Definition unanswered {A} (q : query) (answer : option A) : list query :=
  match answer with Some _ => [] | None => [q] end.

(** The first query of screen [m] that raises, if one does. *)
Definition failing_query (w : world) (m : Z) : option query :=
  match m with
  | 0 => hd_error (unanswered q_hostname (hostname_out w) ++
                   unanswered q_ip (ip_out w) ++
                   unanswered q_cpu_percent (cpu_percent w) ++
                   unanswered q_mem_percent (mem_percent w))
  | 1 => hd_error (unanswered q_uptime (uptime w) ++
                   unanswered q_load_avg (load_avg w) ++
                   unanswered q_cpu_temp (cpu_temp w))
  | _ => None
  end.

(** How a pass ends when query [q] fails, or none does. *)
Definition ends_with (failed : option query) : completion unit :=
  match failed with
  | None => Normal tt
  | Some q => Abrupt (Raised (TelemetryError q))
  end.

(** The same world with another answer on which display calls succeed. *)
Definition with_display (ok : call -> bool) (w : world) : world :=
  {| display_ok := ok;
     gpio_ok := gpio_ok w;
     hostname_out := hostname_out w;
     ip_out := ip_out w;
     utf8 := utf8 w;
     cpu_percent := cpu_percent w;
     mem_percent := mem_percent w;
     uptime := uptime w;
     load_avg := load_avg w;
     cpu_temp := cpu_temp w |}.


(** All three clock readings of a pass at the same instant. *)
Definition pass_at (w : world) (t : Q) : sys_event :=
  pass w (mkClock t t t).

Definition press_at (t : Q) : sys_event := press (mkPress t t).

(** A world in which every display call raises. *)
Definition dead_display : world := with_display (fun _ => false) fair_world.

Definition is_show (c : call) : bool :=
  match c with disp_show => true | _ => false end.

(** A pass of the loop at a clock reading of 15 s or more. *)
Definition late_pass (ev : sys_event) : Prop :=
  match ev with
  | pass _ clk => (DISP_TIMEOUT <= t_active clk)%Q
  | press _ => False
  end.

Definition is_cleanup (c : call) : bool :=
  match c with gpio_cleanup => true | _ => false end.

(** The sleep that ends a pass of the loop. *)
Definition is_nap (c : call) : bool :=
  match c with sleep d => Qeq_bool d (1 # 5) | _ => false end.

Definition is_pass (ev : sys_event) : bool :=
  match ev with pass _ _ => true | press _ => false end.

(** An event during which neither the LED write nor a query raises. *)
Definition calm (ev : sys_event) : Prop :=
  match ev with
  | press _ => True
  | pass w _ => gpio_ok w = true /\ forall m, failing_query w m = None
  end.

(** * The rest of the script *)

(** ** [edge_type_str] (lines 114-119) *)

(** [a is b] on the members of [event.Type]. *)
Definition edge_type_is (a b : edge_type) : bool :=
  match a, b with
  | RISING_EDGE, RISING_EDGE => true
  | FALLING_EDGE, FALLING_EDGE => true
  | _, _ => false
  end.

Definition edge_type_str (event : edge_event) : string :=
  if edge_type_is (event_type event) RISING_EDGE then "Rising"
  else if edge_type_is (event_type event) FALLING_EDGE then "Falling"
  else "Unknown".

(** ** [bg_thread] (lines 181-186) *)

(** What the watcher thread does as seen from outside: the line request of
    line 122, the calls made while watching, and what it prints. *)
Inductive thread_call :=
| request_lines (line : Z)
| watching (c : call)
| print (text : string).

Inductive thread_end :=
| blocked_in_poll
| propagated (e : exn)
| finished.

Record thread_outcome := mkThread {
  thread_log : list thread_call;
  thread_store : globals;
  thread_how : thread_end
}.

(** [request_error] is the text of the [OSError] that
    [gpiod.request_lines] raises, if it raises; [wakeups] are the results
    of [poll.poll()] that the thread has seen so far.  [GpioError] stands
    for [OSError]. *)
Definition bg_thread (request_error : option string)
  (wakeups : list (list ready_fd)) (g : globals) : thread_outcome :=
  match request_error with
  | Some text =>
      mkThread [request_lines BTN_PIN; print text;
                print "Background thread exiting"] g finished
  | None =>
      let r := async_watch_line_value wakeups g in
      let log := request_lines BTN_PIN :: map watching (calls r) in
      match how r with
      | Normal true =>
          mkThread (log ++ [print "Background thread exiting"]) (store r)
            finished
      | Normal false => mkThread log (store r) blocked_in_poll
      | Abrupt (Raised GpioError) =>
          mkThread (log ++ [print "OSError";
                            print "Background thread exiting"]) (store r)
            finished
      | Abrupt (Raised e) => mkThread log (store r) (propagated e)
      | Abrupt Broke => mkThread log (store r) finished
      end
  end.

(** * More observations *)

(** The globals after the watcher has run [btn_press] for each press. *)
Definition press_all (pcs : list press_clock) (g : globals) : globals :=
  fold_left (fun g pc => store (btn_press pc g)) pcs g.

(** ** The rendering part of a pass while the watcher thread runs

    [btn_press] runs in the watcher thread, so presses can be handled
    while the main thread is inside lines 211-259 (it blocks in the
    subprocess and display calls).  Of that part only the reads of
    [menu_state] at lines 216, 237 and 250 can see them: [before] are the
    presses handled before the test of line 216, [during_info] those
    handled between the tests of lines 216 and 237, [during_page1] those
    handled between the tests of lines 237 and 250.  With no press at all
    this is [active_branch]. *)

(** The watcher thread handles these presses, one after the other. *)
Fixpoint watcher_runs (pcs : list press_clock) : M unit :=
  match pcs with
  | [] => ret tt
  | pc :: rest => btn_press pc ;; watcher_runs rest
  end.

Definition active_branch_racing (w : world)
  (before during_info during_page1 : list press_clock) : M unit :=
  try_except_pass (disp w disp_show) ;;
  watcher_runs before ;;
  m0 <- read menu_state ;;
  watcher_runs during_info ;;
  when (m0 =? 0) (screen_info w) ;;
  m1 <- read menu_state ;;
  watcher_runs during_page1 ;;
  when (m1 =? 1) (screen_page1 w) ;;
  m2 <- read menu_state ;;
  when (m2 =? 2) (screen_page2 w).

(** Presses that each come within the timeout of the one before. *)
Fixpoint quick (t : Q) (pcs : list press_clock) : Prop :=
  match pcs with
  | [] => True
  | pc :: rest =>
      (t_check pc - t < DISP_TIMEOUT)%Q /\ quick (t_stamp pc) rest
  end.

(** The clock readings of the presses that a batch of events causes. *)
Definition presses_of (events : list (edge_event * press_clock))
  : list press_clock :=
  map snd (filter falling_on_button events).

Definition is_done (fd : ready_fd) : bool :=
  match fd with done_fd => true | request_fd _ => false end.

(** The edge events that come with a ready descriptor. *)
Definition events_of (fd : ready_fd) : list (edge_event * press_clock) :=
  match fd with done_fd => [] | request_fd events => events end.

(** All the edge events of a list of ready descriptors, in order. *)
Definition events_in (fds : list ready_fd)
  : list (edge_event * press_clock) :=
  List.concat (map events_of fds).

Definition is_print (c : thread_call) : bool :=
  match c with print _ => true | _ => false end.


(** The screen that [menu_state = m] selects. *)
Definition selected_screen (w : world) (m : Z) : M unit :=
  match m with
  | 0 => screen_info w
  | 1 => screen_page1 w
  | 2 => screen_page2 w
  | _ => ret tt
  end.

Definition is_text (c : call) : bool :=
  match c with draw_text _ _ _ => true | _ => false end.


Definition is_enter (c : call) : bool :=
  match c with canvas_enter => true | _ => false end.

(** Every text drawn in the log was drawn without an error. *)
Definition texts_ok (w : world) (cs : list call) : bool :=
  forallb (fun c => negb (is_text c) || display_ok w c) cs.



(** Only passes of the loop, no press. *)
Definition only_passes (evs : list sys_event) : Prop :=
  Forall (fun ev => is_pass ev = true) evs.

(** The display calls of start-up, in order. *)
Definition startup_display_calls : list call :=
  [disp_clear; canvas_enter; draw_rectangle;
   draw_text 11 9 "Infoscreen Started"; canvas_flush].

(** * Properties *)

(** ** Arithmetic of clock readings *)

Lemma Qlt_bool_iff (a b : Q) : Qlt_bool a b = true <-> (a < b)%Q.
Proof.
  unfold Qlt_bool. rewrite negb_true_iff. split.
  - intros H. apply Qnot_le_lt. intros Hle.
    apply Qle_bool_iff in Hle. congruence.
  - intros H. destruct (Qle_bool b a) eqn:E; [|reflexivity].
    apply Qle_bool_iff in E. exfalso. exact (Qlt_not_le _ _ H E).
Qed.

Lemma Qlt_bool_false_iff (a b : Q) : Qlt_bool a b = false <-> (b <= a)%Q.
Proof.
  unfold Qlt_bool. rewrite negb_false_iff. apply Qle_bool_iff.
Qed.

(** On a reading that is not negative, [int()] is the floor. *)
Lemma py_int_floor (x : Q) : (0 <= x)%Q -> py_int x = Qfloor x.
Proof.
  destruct x as [n d]. unfold Qle, py_int, Qfloor. simpl. intros H.
  apply Z.quot_div_nonneg; lia.
Qed.

Lemma mod2_cases (z : Z) : z mod 2 = 0 \/ z mod 2 = 1.
Proof. pose proof (Z.mod_pos_bound z 2). lia. Qed.

(** ** The button handler *)

Lemma btn_press_timeout (pc : press_clock) (g : globals) :
  (DISP_TIMEOUT <= t_check pc - disp_timer g)%Q ->
  btn_press pc g =
  mkOutcome [] (set_disp_timer (t_stamp pc) (set_menu_state 0 g)) (Normal tt).
Proof.
  intros H. apply Qle_bool_iff in H.
  unfold btn_press, bind, read, assign. simpl. rewrite H. reflexivity.
Qed.

Lemma btn_press_awake (pc : press_clock) (g : globals) :
  (t_check pc - disp_timer g < DISP_TIMEOUT)%Q ->
  btn_press pc g =
  mkOutcome []
    (set_disp_timer (t_stamp pc)
       (if menu_state g + 1 =? 3
        then set_menu_state 0 (set_menu_state (menu_state g + 1) g)
        else set_menu_state (menu_state g + 1) g))
    (Normal tt).
Proof.
  intros H. apply Qlt_bool_iff in H. unfold Qlt_bool in H.
  apply negb_true_iff in H.
  unfold btn_press, bind, read, assign, when. simpl. rewrite H. simpl.
  destruct (menu_state g + 1 =? 3); reflexivity.
Qed.

Lemma btn_press_menu_range (pc : press_clock) (g : globals) :
  0 <= menu_state g <= 2 ->
  0 <= menu_state (store (btn_press pc g)) <= 2.
Proof.
  intros Hm.
  destruct (Qlt_le_dec (t_check pc - disp_timer g) DISP_TIMEOUT) as [H|H].
  - rewrite (btn_press_awake _ _ H). simpl.
    destruct (menu_state g + 1 =? 3) eqn:E; simpl; [lia|].
    apply Z.eqb_neq in E. lia.
  - rewrite (btn_press_timeout _ _ H). simpl. lia.
Qed.

(** C1: a press at least 15 s after [disp_timer] sets [menu_state] to 0
    whatever it was; a press within 15 s sets it to [(menu_state + 1) mod 3]
    (for a menu state in 0..2); both set [disp_timer] to the press's clock
    reading, so a press that follows at once stamps the timer again and
    advances the menu by the same rule. *)
Theorem btn_press_transition (pc : press_clock) (g : globals) :
  let g' := store (btn_press pc g) in
  how (btn_press pc g) = Normal tt /\
  ((DISP_TIMEOUT <= t_check pc - disp_timer g)%Q -> menu_state g' = 0) /\
  ((t_check pc - disp_timer g < DISP_TIMEOUT)%Q ->
   0 <= menu_state g <= 2 ->
   menu_state g' = (menu_state g + 1) mod 3) /\
  disp_timer g' = t_stamp pc /\
  (forall pc2 : press_clock,
     let g'' := store (btn_press pc2 g') in
     disp_timer g'' = t_stamp pc2 /\
     ((t_check pc2 - t_stamp pc < DISP_TIMEOUT)%Q ->
      0 <= menu_state g <= 2 ->
      menu_state g'' = (menu_state g' + 1) mod 3)).
Proof.
  assert (Hadv : forall p h, (t_check p - disp_timer h < DISP_TIMEOUT)%Q ->
            0 <= menu_state h <= 2 ->
            menu_state (store (btn_press p h)) = (menu_state h + 1) mod 3).
  { intros p h H Hm. rewrite (btn_press_awake _ _ H). simpl.
    destruct (menu_state h + 1 =? 3) eqn:E; simpl.
    - apply Z.eqb_eq in E. rewrite E. reflexivity.
    - apply Z.eqb_neq in E. rewrite Z.mod_small; lia. }
  assert (Hstamp : forall p h, disp_timer (store (btn_press p h)) = t_stamp p).
  { intros p h.
    destruct (Qlt_le_dec (t_check p - disp_timer h) DISP_TIMEOUT) as [H|H].
    - rewrite (btn_press_awake _ _ H). reflexivity.
    - rewrite (btn_press_timeout _ _ H). reflexivity. }
  cbv zeta. repeat split.
  - destruct (Qlt_le_dec (t_check pc - disp_timer g) DISP_TIMEOUT) as [H|H].
    + rewrite (btn_press_awake _ _ H). reflexivity.
    + rewrite (btn_press_timeout _ _ H). reflexivity.
  - intros H. rewrite (btn_press_timeout _ _ H). reflexivity.
  - apply Hadv.
  - apply Hstamp.
  - apply Hstamp.
  - intros H Hm. apply Hadv.
    + rewrite Hstamp. exact H.
    + apply btn_press_menu_range. exact Hm.
Qed.

(** The scenario of the specification: presses at 5 s and 8 s advance the
    menu, a press at 25 s (17 s after the last one) goes back to Info. *)
Lemma btn_press_transition_witness :
  let g1 := store (btn_press (mkPress 5 5) initial_globals) in
  let g2 := store (btn_press (mkPress 8 8) g1) in
  let g3 := store (btn_press (mkPress 25 25) g2) in
  (menu_state g1 = 1 /\ disp_timer g1 = 5%Q) /\
  (menu_state g2 = 2 /\ disp_timer g2 = 8%Q) /\
  menu_state g3 = 0.
Proof.
  cbv zeta. split; [split | split; [split |]].
  - apply (proj1 (proj2 (proj2 (btn_press_transition (mkPress 5 5)
                                  initial_globals)))).
    + reflexivity.
    + simpl. lia.
  - reflexivity.
  - apply (proj2 (proj2 (proj2 (proj2 (btn_press_transition (mkPress 5 5)
                                         initial_globals))))
             (mkPress 8 8)).
    + reflexivity.
    + simpl. lia.
  - reflexivity.
  - apply (proj1 (proj2 (btn_press_transition (mkPress 25 25) _))).
    vm_compute. discriminate.
Defined.

(** ** Reasoning about monadic code, one combinator at a time *)

Section Combinators.
Context {F : Type} (field : globals -> F).
Variable bad : signal -> bool.
Variable allowed : call -> bool.

Lemma keeps_ret {A} (a : A) : keeps field (ret a).
Proof. intros g. reflexivity. Qed.

Lemma keeps_read {A} (f : globals -> A) : keeps field (read f).
Proof. intros g. reflexivity. Qed.

Lemma keeps_note (c : call) : keeps field (note c).
Proof. intros g. reflexivity. Qed.

Lemma keeps_extern (c : call) (ok : bool) (e : exn) :
  keeps field (extern c ok e).
Proof. intros g. reflexivity. Qed.

Lemma keeps_extern_value {A} (c : call) (answer : option A) (e : exn) :
  keeps field (extern_value c answer e).
Proof. intros g. reflexivity. Qed.

Lemma keeps_assign (upd : globals -> globals) :
  (forall g, field (upd g) = field g) -> keeps field (assign upd).
Proof. intros H g. apply H. Qed.

Lemma keeps_bind {A B} (m : M A) (k : A -> M B) :
  keeps field m -> (forall a, keeps field (k a)) -> keeps field (bind m k).
Proof.
  intros Hm Hk g. unfold bind. specialize (Hm g).
  destruct (how (m g)) as [a|s]; simpl; [|exact Hm].
  rewrite Hk. exact Hm.
Qed.

Lemma keeps_try (body : M unit) :
  keeps field body -> keeps field (try_except_pass body).
Proof.
  intros Hb g. unfold try_except_pass. specialize (Hb g).
  destruct (how (body g)) as [a|[|e]]; exact Hb.
Qed.

Lemma keeps_when (b : bool) (body : M unit) :
  keeps field body -> keeps field (when b body).
Proof. intros Hb. destruct b; [exact Hb | apply keeps_ret]. Qed.

Lemma avoids_ret {A} (a : A) : avoids bad (ret a).
Proof. intros g s H. discriminate H. Qed.

Lemma avoids_read {A} (f : globals -> A) : avoids bad (read f).
Proof. intros g s H. discriminate H. Qed.

Lemma avoids_assign (upd : globals -> globals) : avoids bad (assign upd).
Proof. intros g s H. discriminate H. Qed.

Lemma avoids_note (c : call) : avoids bad (note c).
Proof. intros g s H. discriminate H. Qed.

Lemma avoids_extern (c : call) (ok : bool) (e : exn) :
  bad (Raised e) = false -> avoids bad (extern c ok e).
Proof.
  intros He g s H. unfold extern in H. simpl in H.
  destruct ok; [discriminate H|]. injection H as <-. exact He.
Qed.

Lemma avoids_extern_value {A} (c : call) (answer : option A) (e : exn) :
  bad (Raised e) = false -> avoids bad (extern_value c answer e).
Proof.
  intros He g s H. unfold extern_value in H. simpl in H.
  destruct answer; [discriminate H|]. injection H as <-. exact He.
Qed.

Lemma avoids_bind {A B} (m : M A) (k : A -> M B) :
  avoids bad m -> (forall a, avoids bad (k a)) -> avoids bad (bind m k).
Proof.
  intros Hm Hk g s. unfold bind. specialize (Hm g).
  destruct (how (m g)) as [a|s0]; simpl.
  - apply Hk.
  - intros H. injection H as <-. apply Hm. reflexivity.
Qed.

(** A bare [except] lets no exception out, whatever the body raises. *)
Lemma avoids_try (body : M unit) :
  avoids is_break body -> avoids bad (try_except_pass body).
Proof.
  intros Hb g s. unfold try_except_pass. specialize (Hb g).
  destruct (how (body g)) as [a|[|e]] eqn:E; simpl; intros H.
  - rewrite E in H. discriminate H.
  - specialize (Hb Broke eq_refl). discriminate Hb.
  - discriminate H.
Qed.

Lemma avoids_when (b : bool) (body : M unit) :
  avoids bad body -> avoids bad (when b body).
Proof. intros Hb. destruct b; [exact Hb | apply avoids_ret]. Qed.

Lemma emits_ret {A} (a : A) : emits_only allowed (ret a).
Proof. intros g c []. Qed.

Lemma emits_read {A} (f : globals -> A) : emits_only allowed (read f).
Proof. intros g c []. Qed.

Lemma emits_assign (upd : globals -> globals) :
  emits_only allowed (assign upd).
Proof. intros g c []. Qed.

Lemma emits_note (c : call) : allowed c = true -> emits_only allowed (note c).
Proof. intros H g c' [<-|[]]. exact H. Qed.

Lemma emits_extern (c : call) (ok : bool) (e : exn) :
  allowed c = true -> emits_only allowed (extern c ok e).
Proof. intros H g c' [<-|[]]. exact H. Qed.

Lemma emits_extern_value {A} (c : call) (answer : option A) (e : exn) :
  allowed c = true -> emits_only allowed (extern_value c answer e).
Proof. intros H g c' [<-|[]]. exact H. Qed.

Lemma emits_bind {A B} (m : M A) (k : A -> M B) :
  emits_only allowed m -> (forall a, emits_only allowed (k a)) ->
  emits_only allowed (bind m k).
Proof.
  intros Hm Hk g c. unfold bind. specialize (Hm g).
  destruct (how (m g)) as [a|s]; simpl.
  - rewrite in_app_iff. intros [H|H]; [apply (Hm _ H) | apply (Hk _ _ _ H)].
  - apply Hm.
Qed.

Lemma emits_try (body : M unit) :
  emits_only allowed body -> emits_only allowed (try_except_pass body).
Proof.
  intros Hb g c. unfold try_except_pass. specialize (Hb g).
  destruct (how (body g)) as [a|[|e]]; apply Hb.
Qed.

Lemma emits_when (b : bool) (body : M unit) :
  emits_only allowed body -> emits_only allowed (when b body).
Proof. intros Hb. destruct b; [exact Hb | apply emits_ret]. Qed.
End Combinators.

Lemma agree_refl {A} (m : M A) : agree m m.
Proof. intros g. split; reflexivity. Qed.

Lemma agree_bind {A B} (m1 m2 : M A) (k1 k2 : A -> M B) :
  agree m1 m2 -> (forall a, agree (k1 a) (k2 a)) ->
  agree (bind m1 k1) (bind m2 k2).
Proof.
  intros Hm Hk g. unfold bind. destruct (Hm g) as [Hs Hh].
  rewrite <- Hh. destruct (how (m1 g)) as [a|s]; simpl.
  - rewrite <- Hs. apply Hk.
  - split; [exact Hs | reflexivity].
Qed.

Lemma agree_when (b : bool) (m1 m2 : M unit) :
  agree m1 m2 -> agree (when b m1) (when b m2).
Proof. intros H. destruct b; [exact H | apply agree_refl]. Qed.

(** Two guarded blocks that touch no global and hold no [break] cannot be
    told apart by what follows them. *)
Lemma agree_try (b1 b2 : M unit) :
  keeps (fun g => g) b1 -> keeps (fun g => g) b2 ->
  avoids is_break b1 -> avoids is_break b2 ->
  agree (try_except_pass b1) (try_except_pass b2).
Proof.
  intros K1 K2 A1 A2 g. unfold try_except_pass.
  specialize (K1 g). specialize (K2 g). specialize (A1 g). specialize (A2 g).
  destruct (how (b1 g)) as [[]|[|e1]] eqn:E1;
    destruct (how (b2 g)) as [[]|[|e2]] eqn:E2;
    simpl; rewrite ?E1, ?E2; try (split; [congruence | reflexivity]);
    try (specialize (A1 Broke eq_refl); discriminate A1);
    try (specialize (A2 Broke eq_refl); discriminate A2).
Qed.

(** Solves a [keeps], [avoids] or [emits_only] goal about a piece of the
    script by walking through its combinators. *)
Ltac walk :=
  repeat first
    [ progress intros
    | apply keeps_bind | apply keeps_try | apply keeps_when
    | apply keeps_ret | apply keeps_read | apply keeps_note
    | apply keeps_extern | apply keeps_extern_value
    | apply keeps_assign; intros; reflexivity
    | apply avoids_bind | apply avoids_try | apply avoids_when
    | apply avoids_ret | apply avoids_read | apply avoids_assign
    | apply avoids_note
    | apply avoids_extern; reflexivity
    | apply avoids_extern_value; reflexivity
    | apply emits_bind | apply emits_try | apply emits_when
    | apply emits_ret | apply emits_read | apply emits_assign
    | apply emits_note; reflexivity
    | apply emits_extern; reflexivity
    | apply emits_extern_value; reflexivity
    | match goal with |- context [if ?b then _ else _] => destruct b end ].

(** ** What the pieces of the loop leave alone *)

Lemma screen_info_pure (w : world) : keeps (fun g => g) (screen_info w).
Proof. unfold screen_info, disp, telemetry, decode. walk. Qed.

Lemma screen_page1_pure (w : world) : keeps (fun g => g) (screen_page1 w).
Proof. unfold screen_page1, disp, telemetry. walk. Qed.

Lemma screen_page2_pure (w : world) : keeps (fun g => g) (screen_page2 w).
Proof. unfold screen_page2, disp. walk. Qed.

Lemma keeps_weaken {F A} (field : globals -> F) (m : M A) :
  keeps (fun g => g) m -> keeps field m.
Proof. intros H g. rewrite (H g). reflexivity. Qed.

Section LoopFrame.
Variables (w : world) (clk : loop_clock).

Lemma led_step_keeps {F} (field : globals -> F) :
  (forall v g, field (set_LED_state v g) = field g) ->
  keeps field (led_step w (t_led clk)).
Proof.
  intros H. unfold led_step. walk.
  apply keeps_assign. intros. apply H.
Qed.

Lemma display_step_keeps {F} (field : globals -> F) :
  (forall v g, field (set_last_second v g) = field g) ->
  keeps field (display_step w (t_second clk) (t_active clk)).
Proof.
  intros H. unfold display_step, active_branch, idle_branch, disp.
  repeat first
    [ progress intros
    | apply keeps_weaken;
      first [apply screen_info_pure | apply screen_page1_pure
            | apply screen_page2_pure]
    | apply keeps_bind | apply keeps_try | apply keeps_when
    | apply keeps_read | apply keeps_extern
    | apply keeps_assign; intros; apply H
    | match goal with |- context [if ?b then _ else _] => destruct b end ].
Qed.

Lemma loop_body_keeps {F} (field : globals -> F) :
  (forall v g, field (set_LED_state v g) = field g) ->
  (forall v g, field (set_last_second v g) = field g) ->
  keeps field (loop_body w clk).
Proof.
  intros H1 H2. unfold loop_body.
  apply keeps_bind; [apply led_step_keeps; exact H1 | intros _].
  apply keeps_bind; [apply display_step_keeps; exact H2 | intros _].
  apply keeps_note.
Qed.

Lemma loop_body_no_break : avoids is_break (loop_body w clk).
Proof.
  unfold loop_body, led_step, display_step, active_branch, idle_branch,
    screen_info, screen_page1, screen_page2, disp, telemetry, decode.
  walk.
Qed.

Lemma loop_body_no_display_error :
  avoids is_display_error (loop_body w clk).
Proof.
  unfold loop_body, led_step, display_step, active_branch, idle_branch,
    screen_info, screen_page1, screen_page2, disp, telemetry, decode.
  walk.
Qed.
End LoopFrame.

Lemma btn_press_normal (pc : press_clock) (g : globals) :
  how (btn_press pc g) = Normal tt /\ calls (btn_press pc g) = [].
Proof.
  destruct (Qlt_le_dec (t_check pc - disp_timer g) DISP_TIMEOUT) as [H|H].
  - rewrite (btn_press_awake _ _ H). split; reflexivity.
  - rewrite (btn_press_timeout _ _ H). split; reflexivity.
Qed.

(** ** The menu over whole runs *)

Lemma sys_step_menu_range (s : system) (ev : sys_event) :
  0 <= menu_state (sys_globals s) <= 2 ->
  0 <= menu_state (sys_globals (sys_step s ev)) <= 2.
Proof.
  intros H. destruct ev as [pc | w clk]; simpl.
  - apply btn_press_menu_range. exact H.
  - unfold main_pass. destruct (sys_main s); [|exact H|exact H].
    unfold loop_condition.
    assert (K : menu_state (store (loop_body w clk (sys_globals s)))
                = menu_state (sys_globals s))
      by (apply loop_body_keeps; reflexivity).
    destruct (how (loop_body w clk (sys_globals s))) as [a|[|e]];
      simpl; rewrite K; exact H.
Qed.

Lemma run_menu_range (evs : list sys_event) (s : system) :
  0 <= menu_state (sys_globals s) <= 2 ->
  0 <= menu_state (sys_globals (run evs s)) <= 2.
Proof.
  revert s. induction evs as [|ev evs IH]; intros s H; simpl.
  - exact H.
  - apply IH. apply sys_step_menu_range. exact H.
Qed.

Lemma boot_globals (w : world) :
  LED_state (sys_globals (boot w)) = false /\
  disp_timer (sys_globals (boot w)) = 0%Q /\
  menu_state (sys_globals (boot w)) = 0.
Proof.
  unfold boot.
  assert (K1 : keeps LED_state (startup w))
    by (unfold startup, disp; walk).
  assert (K2 : keeps disp_timer (startup w))
    by (unfold startup, disp; walk).
  assert (K3 : keeps menu_state (startup w))
    by (unfold startup, disp; walk).
  simpl. rewrite K1, K2, K3. repeat split.
Qed.

(** C2: from the start of the script, after any sequence of button presses
    (and passes of the foreground loop between them) [menu_state] is 0, 1
    or 2; a press within the timeout at [menu_state = 2] wraps to 0; a
    press at least 15 s after [disp_timer] gives 0 from any prior value. *)
Theorem menu_state_always_in_range (w : world) (evs : list sys_event) :
  0 <= menu_state (sys_globals (run evs (boot w))) <= 2 /\
  (forall pc g,
     menu_state g = 2 ->
     (t_check pc - disp_timer g < DISP_TIMEOUT)%Q ->
     menu_state (store (btn_press pc g)) = 0) /\
  (forall pc g,
     (DISP_TIMEOUT <= t_check pc - disp_timer g)%Q ->
     menu_state (store (btn_press pc g)) = 0).
Proof.
  split; [|split].
  - apply run_menu_range.
    destruct (boot_globals w) as (_ & _ & ->). lia.
  - intros pc g Hm H. rewrite (btn_press_awake _ _ H). simpl.
    rewrite Hm. reflexivity.
  - intros pc g H. rewrite (btn_press_timeout _ _ H). reflexivity.
Qed.

(** On Page 2, a press 3 s after the last one wraps to Info. *)
Lemma menu_state_always_in_range_witness :
  menu_state (store (btn_press (mkPress 8 8) (mkGlobals false 5 2 7))) = 0.
Proof.
  apply (proj1 (proj2 (menu_state_always_in_range fair_world []))).
  - reflexivity.
  - reflexivity.
Defined.

(** ** The watcher's filter *)

Lemma btn_press_no_callback (pc : press_clock) :
  emits_only (fun c => negb (is_callback c)) (btn_press pc).
Proof. intros g c. rewrite (proj2 (btn_press_normal pc g)). intros []. Qed.

Lemma callback_step (b : bool) (pc : press_clock) (g : globals) :
  when b (note btn_press_called ;; btn_press pc) g =
  mkOutcome (if b then [btn_press_called] else [])
            (if b then store (btn_press pc g) else g) (Normal tt).
Proof.
  destruct b; [|reflexivity].
  unfold when, bind, note. cbn [how store calls].
  destruct (btn_press_normal pc g) as [Hh Hc]. rewrite Hh, Hc. reflexivity.
Qed.

Lemma bind_after_normal {A B} (m : M A) (k : A -> M B) (g : globals)
  (cs : list call) (g1 : globals) (a : A) :
  m g = mkOutcome cs g1 (Normal a) ->
  bind m k g =
  mkOutcome (cs ++ calls (k a g1)) (store (k a g1)) (how (k a g1)).
Proof. intros H. unfold bind. rewrite H. reflexivity. Qed.

Lemma for_events_cons (event : edge_event) (pc : press_clock)
  (rest : list (edge_event * press_clock)) (g : globals) :
  for_events ((event, pc) :: rest) g =
  (when (falling_on_button (event, pc))
     (note btn_press_called ;; btn_press pc) ;; for_events rest) g.
Proof. reflexivity. Qed.

Lemma for_events_callbacks (events : list (edge_event * press_clock)) :
  forall g,
    List.length (filter is_callback (calls (for_events events g))) =
    List.length (filter falling_on_button events).
Proof.
  induction events as [|[event pc] rest IH]; intros g; [reflexivity|].
  rewrite for_events_cons.
  rewrite (bind_after_normal _ _ _ _ _ _ (callback_step _ pc g)).
  cbn [calls filter].
  destruct (falling_on_button (event, pc));
    cbn [app filter is_callback List.length].
  - f_equal. apply IH.
  - apply IH.
Qed.

Lemma async_watch_single (event : edge_event) (pc : press_clock)
  (g : globals) :
  async_watch_line_value [[request_fd [(event, pc)]]] g =
  mkOutcome
    (read_edge_events ::
     (if falling_on_button (event, pc) then [btn_press_called] else []))
    (if falling_on_button (event, pc) then store (btn_press pc g) else g)
    (Normal false).
Proof.
  assert (H1 : for_events [(event, pc)] g =
               mkOutcome
                 (if falling_on_button (event, pc)
                  then [btn_press_called] else [])
                 (if falling_on_button (event, pc)
                  then store (btn_press pc g) else g) (Normal tt)).
  { rewrite for_events_cons.
    rewrite (bind_after_normal _ _ _ _ _ _ (callback_step _ pc g)).
    simpl. rewrite app_nil_r. reflexivity. }
  assert (H2 : for_ready [request_fd [(event, pc)]] g =
               mkOutcome
                 (read_edge_events ::
                  (if falling_on_button (event, pc)
                   then [btn_press_called] else []))
                 (if falling_on_button (event, pc)
                  then store (btn_press pc g) else g) (Normal false)).
  { cbn [for_ready].
    rewrite (bind_after_normal _ _ g [read_edge_events] g tt eq_refl).
    rewrite (bind_after_normal _ _ _ _ _ _ H1).
    simpl. rewrite app_nil_r. reflexivity. }
  cbn [async_watch_line_value].
  rewrite (bind_after_normal _ _ _ _ _ _ H2).
  simpl. rewrite app_nil_r. reflexivity.
Qed.

Lemma for_events_outcome (events : list (edge_event * press_clock)) :
  forall g,
    for_events events g =
    mkOutcome (map (fun _ => btn_press_called) (presses_of events))
      (press_all (presses_of events) g) (Normal tt).
Proof.
  induction events as [|[event pc] rest IH]; intros g; [reflexivity|].
  rewrite for_events_cons.
  rewrite (bind_after_normal _ _ _ _ _ _ (callback_step _ pc g)).
  rewrite IH. cbn [calls store how]. unfold presses_of.
  cbn [filter]. destruct (falling_on_button (event, pc)); reflexivity.
Qed.

(** C7: the watcher invokes [btn_press] for an edge event exactly when the
    event is a falling edge on line [BTN_PIN]: for such an event it reads
    the events, calls back once, and the globals end as [btn_press] leaves
    them; any other event (a rising edge, another line) leaves the globals
    as they were; in a batch of events the callback runs once per falling
    edge on the button line, and the globals end as after [btn_press] run
    for each of these, in order. *)
Theorem watcher_calls_back_iff_falling_on_button
  (event : edge_event) (pc : press_clock) (g : globals) :
  (In btn_press_called
      (calls (async_watch_line_value [[request_fd [(event, pc)]]] g)) <->
   line_offset event = BTN_PIN /\ event_type event = FALLING_EDGE) /\
  (~ (line_offset event = BTN_PIN /\ event_type event = FALLING_EDGE) ->
   store (async_watch_line_value [[request_fd [(event, pc)]]] g) = g) /\
  (forall events : list (edge_event * press_clock),
     List.length (filter is_callback (calls (for_events events g))) =
     List.length (filter falling_on_button events)) /\
  (line_offset event = BTN_PIN /\ event_type event = FALLING_EDGE ->
   store (async_watch_line_value [[request_fd [(event, pc)]]] g) =
   store (btn_press pc g) /\
   calls (async_watch_line_value [[request_fd [(event, pc)]]] g) =
   [read_edge_events; btn_press_called]) /\
  (forall events : list (edge_event * press_clock),
     store (for_events events g) = press_all (presses_of events) g).
Proof.
  assert (Hq : (line_offset event =? BTN_PIN) && is_falling (event_type event)
               = true <->
               line_offset event = BTN_PIN /\ event_type event = FALLING_EDGE).
  { rewrite andb_true_iff, Z.eqb_eq.
    destruct (event_type event); simpl; intuition congruence. }
  rewrite async_watch_single. unfold falling_on_button. cbn [fst calls store].
  split; [|split; [|split; [|split]]].
  - rewrite <- Hq.
    destruct ((line_offset event =? BTN_PIN) && is_falling (event_type event)).
    + split; [reflexivity|]. intros _. right. left. reflexivity.
    + split; [|discriminate]. intros [H|[]]. discriminate H.
  - intros Hn.
    destruct ((line_offset event =? BTN_PIN) && is_falling (event_type event)).
    + exfalso. apply Hn. apply Hq. reflexivity.
    + reflexivity.
  - intros events. apply for_events_callbacks.
  - intros Hf. apply Hq in Hf. rewrite Hf. split; reflexivity.
  - intros events. rewrite for_events_outcome. reflexivity.
Qed.

(** A rising edge on the button line is not a press; a falling edge at
    20 s is one: the timer is stamped and the callback logged. *)
Lemma watcher_calls_back_iff_falling_on_button_witness :
  store (async_watch_line_value
           [[request_fd [(mkEdge 27 RISING_EDGE, mkPress 20 20)]]]
           initial_globals) = initial_globals /\
  (store (async_watch_line_value
            [[request_fd [(mkEdge 27 FALLING_EDGE, mkPress 20 20)]]]
            initial_globals) =
   store (btn_press (mkPress 20 20) initial_globals) /\
   calls (async_watch_line_value
            [[request_fd [(mkEdge 27 FALLING_EDGE, mkPress 20 20)]]]
            initial_globals) =
   [read_edge_events; btn_press_called]).
Proof.
  split.
  - apply (proj1 (proj2 (watcher_calls_back_iff_falling_on_button
                           (mkEdge 27 RISING_EDGE) (mkPress 20 20)
                           initial_globals))).
    simpl. intros [_ H]. discriminate H.
  - apply (proj1 (proj2 (proj2 (proj2
             (watcher_calls_back_iff_falling_on_button
                (mkEdge 27 FALLING_EDGE) (mkPress 20 20)
                initial_globals))))).
    split; reflexivity.
Defined.

(** ** The heartbeat LED *)

Lemma led_step_state (w : world) (now : Q) (g : globals) :
  store (led_step w now g) =
  if Z.b2z (LED_state g) =? py_int now mod 2 then g
  else set_LED_state (negb (LED_state g)) g.
Proof.
  unfold led_step, bind, read, when. simpl.
  destruct (Z.b2z (LED_state g) =? py_int now mod 2); reflexivity.
Qed.

Lemma led_step_parity (w : world) (now : Q) (g : globals) :
  Z.b2z (LED_state (store (led_step w now g))) = py_int now mod 2.
Proof.
  rewrite led_step_state.
  destruct (Z.b2z (LED_state g) =? py_int now mod 2) eqn:E.
  - apply Z.eqb_eq. exact E.
  - apply Z.eqb_neq in E. simpl.
    destruct (mod2_cases (py_int now)) as [H|H]; rewrite H in *;
      destruct (LED_state g); simpl in *; congruence.
Qed.

(** C10: after the LED step of a pass at wall-clock time [now] (not before
    the epoch), [LED_state] is [floor(now) mod 2] whatever it was before;
    the rest of the pass does not change it, and this holds also when the
    write to the GPIO line raises. *)
Theorem led_step_self_synchronising
  (w : world) (now : Q) (g : globals) (Hnow : (0 <= now)%Q) :
  Z.b2z (LED_state (store (led_step w now g))) = Qfloor now mod 2 /\
  (forall clk, t_led clk = now ->
     Z.b2z (LED_state (store (loop_body w clk g))) = Qfloor now mod 2).
Proof.
  rewrite <- (py_int_floor now Hnow). split.
  - apply led_step_parity.
  - intros clk <-. unfold loop_body.
    assert (K : keeps LED_state
                  (display_step w (t_second clk) (t_active clk) ;;
                   note (sleep (1 # 5)))).
    { apply keeps_bind; [|intros; apply keeps_note].
      apply display_step_keeps. reflexivity. }
    unfold bind at 1.
    destruct (how (led_step w (t_led clk) g)) as [[]|s]; simpl.
    + rewrite K. apply led_step_parity.
    + apply led_step_parity.
Qed.

(** At 1700000001.4 s the LED ends up on, from off and from on. *)
Lemma led_step_self_synchronising_witness :
  LED_state (store (led_step fair_world (17000000014 # 10)
                      (mkGlobals false 0 0 (-1)))) = true /\
  LED_state (store (led_step fair_world (17000000014 # 10)
                      (mkGlobals true 0 0 (-1)))) = true.
Proof.
  assert (H : forall led,
             Z.b2z (LED_state (store (led_step fair_world (17000000014 # 10)
                                        (mkGlobals led 0 0 (-1))))) = 1).
  { intros led.
    apply (proj1 (led_step_self_synchronising fair_world (17000000014 # 10)
                    (mkGlobals led 0 0 (-1)) ltac:(discriminate))). }
  split.
  - specialize (H false).
    destruct (LED_state (store (led_step fair_world (17000000014 # 10)
                                  (mkGlobals false 0 0 (-1)))));
      [reflexivity | discriminate H].
  - specialize (H true).
    destruct (LED_state (store (led_step fair_world (17000000014 # 10)
                                  (mkGlobals true 0 0 (-1)))));
      [reflexivity | discriminate H].
Defined.

(** ** The LED over successive passes *)

Lemma Qfloor_plus_Z (x : Q) (k : Z) : Qfloor (x + inject_Z k) = Qfloor x + k.
Proof.
  destruct x as [n d]. unfold Qfloor, Qplus, inject_Z. simpl.
  rewrite Pos.mul_1_r, Z.mul_1_r. apply Z.div_add. discriminate.
Qed.

Lemma Qfloor_steady (t t' : Q) :
  (t <= t')%Q -> (t' < t + 1)%Q ->
  Qfloor t <= Qfloor t' <= Qfloor t + 1.
Proof.
  intros H1 H2. split.
  - apply Qfloor_resp_le. exact H1.
  - rewrite <- (Qfloor_plus_Z t 1). apply Qfloor_resp_le.
    apply Qlt_le_weak. exact H2.
Qed.

Lemma last_cons {A} (a d : A) (l : list A) : last (a :: l) d = last l a.
Proof.
  revert a d. induction l as [|b l IH]; intros a d; [reflexivity|].
  change (last (a :: b :: l) d) with (last (b :: l) d).
  rewrite IH. symmetry. apply IH.
Qed.

Lemma steady_last (t : Q) (ts : list Q) : steady t ts -> (t <= last ts t)%Q.
Proof.
  revert t. induction ts as [|t' rest IH]; intros t H.
  - apply Qle_refl.
  - destruct H as [[H1 _] H2]. rewrite last_cons.
    apply Qle_trans with t'; [exact H1 | apply IH; exact H2].
Qed.

Lemma led_flips_at_iff (w : world) (now : Q) (g : globals) :
  led_flips_at w now g = true <-> Z.b2z (LED_state g) <> py_int now mod 2.
Proof.
  unfold led_flips_at. rewrite led_step_state.
  destruct (Z.b2z (LED_state g) =? py_int now mod 2) eqn:E.
  - apply Z.eqb_eq in E. rewrite eqb_reflx. simpl.
    split; [discriminate | intros H; contradiction].
  - apply Z.eqb_neq in E. simpl.
    destruct (LED_state g); simpl; split; auto.
Qed.

Lemma led_flips_after (w : world) (prev now : Q) (g : globals) :
  led_flips_at w now (store (led_step w prev g)) = true <->
  py_int now mod 2 <> py_int prev mod 2.
Proof.
  rewrite led_flips_at_iff, led_step_parity. split; intros H E; apply H; auto.
Qed.

Lemma led_flip_count_steady (w : world) (ts : list Q) :
  forall (t0 : Q) (g : globals),
    (0 <= t0)%Q -> steady t0 ts ->
    led_flip_count w ts (store (led_step w t0 g)) =
    Z.to_nat (py_int (last ts t0) - py_int t0).
Proof.
  induction ts as [|t' rest IH]; intros t0 g H0 Hs.
  - simpl. rewrite Z.sub_diag. reflexivity.
  - destruct Hs as [[H1 H2] Hs]. rewrite last_cons.
    assert (H0' : (0 <= t')%Q) by (apply Qle_trans with t0; assumption).
    assert (Hl : (0 <= last rest t')%Q)
      by (apply Qle_trans with t'; [assumption | apply steady_last; exact Hs]).
    cbn [led_flip_count]. rewrite (IH t' _ H0' Hs).
    pose proof (Qfloor_steady _ _ H1 H2) as Hst.
    pose proof (Qfloor_resp_le _ _ (steady_last _ _ Hs)) as Hge.
    pose proof (led_flips_after w t0 t' g) as Hf.
    rewrite (py_int_floor _ H0), (py_int_floor _ H0'), (py_int_floor _ Hl) in *.
    destruct (led_flips_at w t' (store (led_step w t0 g))).
    + assert (Hd : Qfloor t' mod 2 <> Qfloor t0 mod 2)
        by (apply Hf; reflexivity).
      assert (Qfloor t' = Qfloor t0 + 1).
      { destruct (Z.eq_dec (Qfloor t') (Qfloor t0)) as [E|E];
          [rewrite E in Hd; contradiction | lia]. }
      lia.
    + assert (Hd : ~ Qfloor t' mod 2 <> Qfloor t0 mod 2)
        by (intros Hd; apply Hf in Hd; discriminate Hd).
      assert (Qfloor t' = Qfloor t0).
      { destruct (Z.eq_dec (Qfloor t') (Qfloor t0 + 1)) as [E|E]; [|lia].
        exfalso. apply Hd. rewrite E.
        rewrite Z.add_mod by lia.
        destruct (mod2_cases (Qfloor t0)) as [M|M]; rewrite M;
          discriminate. }
      lia.
Qed.

(** Decides a comparison of two given readings. *)
Ltac qcmp :=
  first [ vm_compute; reflexivity
        | vm_compute; discriminate
        | vm_compute; let X := fresh in intros X; apply X; reflexivity ].

(** C4, as the code has it: the LED step flips [LED_state] exactly when it
    differs from the parity of [int(now)]; hence, from one pass to the
    next, exactly when the parity of the integer second changed; over
    passes whose readings never go back and are less than a second apart,
    the number of flips is the number of integer seconds gone by between
    the first and the last reading, which is 2 when these two readings are
    exactly 2 s apart. *)
Theorem led_flips_follow_integer_second (w : world) :
  (forall now g,
     led_flips_at w now g = true <->
     Z.b2z (LED_state g) <> py_int now mod 2) /\
  (forall prev now g,
     led_flips_at w now (store (led_step w prev g)) = true <->
     py_int now mod 2 <> py_int prev mod 2) /\
  (forall t0 ts g,
     (0 <= t0)%Q -> steady t0 ts ->
     led_flip_count w ts (store (led_step w t0 g)) =
     Z.to_nat (py_int (last ts t0) - py_int t0)) /\
  (forall t0 ts g,
     (0 <= t0)%Q -> steady t0 ts -> (last ts t0 == t0 + 2)%Q ->
     led_flip_count w ts (store (led_step w t0 g)) = 2%nat).
Proof.
  split; [|split; [|split]].
  - intros now g. apply led_flips_at_iff.
  - intros prev now g. apply led_flips_after.
  - intros t0 ts g H0 Hs. apply led_flip_count_steady; assumption.
  - intros t0 ts g H0 Hs Hl.
    rewrite (led_flip_count_steady w ts t0 g H0 Hs).
    assert (Hl0 : (0 <= last ts t0)%Q)
      by (apply Qle_trans with t0; [assumption | apply steady_last; exact Hs]).
    rewrite (py_int_floor _ H0), (py_int_floor _ Hl0).
    rewrite Hl. change 2%Q with (inject_Z 2). rewrite Qfloor_plus_Z.
    replace (Qfloor t0 + 2 - Qfloor t0) with 2 by lia. reflexivity.
Qed.

(** Passes about every 0.2 s from ...09.99 s to ...11.99 s: two flips. *)
Lemma led_flips_follow_integer_second_witness :
  led_flip_count fair_world
    (map at_epoch [10190; 10390; 10590; 10790; 10990;
                   11190; 11400; 11600; 11800; 11990])
    (store (led_step fair_world (at_epoch 9990) initial_globals)) = 2%nat.
Proof.
  apply (proj2 (proj2 (proj2 (led_flips_follow_integer_second fair_world)))).
  - qcmp.
  - simpl. repeat split; qcmp.
  - qcmp.
Defined.

(** C4 as stated fails: the loop makes a pass every 0.201 s (its 0.2 s
    sleep and 1 ms of work); an observer samples the LED every 0.2 s over
    a window of exactly 2 s, from ...10.1 s to ...12.1 s, and counts three
    flips: those made by the passes at ...10.191 s, ...11.196 s and
    ...12.000 s. *)
Lemma led_three_flips_in_two_seconds :
  let readings :=
    map at_epoch [9990; 10191; 10392; 10593; 10794; 10995; 11196;
                  11397; 11598; 11799; 12000; 12201] in
  let samples :=
    map at_epoch [10100; 10300; 10500; 10700; 10900; 11100; 11300;
                  11500; 11700; 11900; 12100] in
  gaps_within (201 # 1000) (201 # 1000) readings = true /\
  gaps_within (1 # 5) (1 # 5) samples = true /\
  (last samples 0 - hd 0 samples == 2)%Q /\
  observed_flips fair_world readings initial_globals samples = 3%nat.
Proof.
  cbv zeta. split; [|split; [|split]]; vm_compute; reflexivity.
Qed.

(** ** The display step *)

Lemma display_step_same_second (w : world) (ts ta : Q) (g : globals) :
  py_int (ts - disp_timer g) = last_second g ->
  display_step w ts ta g = mkOutcome [] g (Normal tt).
Proof.
  intros H. unfold display_step, bind, read, when. simpl.
  rewrite H, Z.eqb_refl. reflexivity.
Qed.

Lemma display_step_new_second (w : world) (ts ta : Q) (g : globals) :
  py_int (ts - disp_timer g) <> last_second g ->
  display_step w ts ta g =
  (if Qlt_bool (ta - disp_timer g) DISP_TIMEOUT
   then active_branch w else idle_branch w)
    (set_last_second (py_int (ts - disp_timer g)) g).
Proof.
  intros H. apply Z.eqb_neq in H.
  unfold display_step, bind, read, when, assign. cbn [how store calls].
  rewrite H. cbn [negb how store calls app disp_timer set_last_second].
  destruct (Qlt_bool (ta - disp_timer g) DISP_TIMEOUT);
    match goal with |- context [calls ?X] => destruct X end; reflexivity.
Qed.

Lemma idle_branch_calls (w : world) (g : globals) :
  idle_branch w g =
  mkOutcome
    (disp_clear :: if display_ok w disp_clear then [disp_hide] else [])
    g (Normal tt).
Proof.
  unfold idle_branch, try_except_pass, bind, disp, extern. simpl.
  destruct (display_ok w disp_clear); simpl;
    [destruct (display_ok w disp_hide)|]; reflexivity.
Qed.

Lemma active_branch_shows (w : world) (g : globals) :
  In disp_show (calls (active_branch w g)).
Proof.
  unfold active_branch. unfold bind at 1.
  assert (H : calls (try_except_pass (disp w disp_show) g) = [disp_show]).
  { unfold try_except_pass, disp, extern. simpl.
    destruct (display_ok w disp_show); reflexivity. }
  destruct (how (try_except_pass (disp w disp_show) g)); simpl;
    rewrite H; left; reflexivity.
Qed.


Lemma try_show (w : world) (g : globals) :
  try_except_pass (disp w disp_show) g = mkOutcome [disp_show] g (Normal tt).
Proof.
  unfold try_except_pass, disp, extern. simpl.
  destruct (display_ok w disp_show); reflexivity.
Qed.

Lemma try_after_normal (body : M unit) (g g1 : globals) (cs : list call) :
  body g = mkOutcome cs g1 (Normal tt) ->
  try_except_pass body g = mkOutcome cs g1 (Normal tt).
Proof. intros H. unfold try_except_pass. rewrite H. reflexivity. Qed.

(** Runs the first statement of a sequence whose outcome [tac] can settle. *)
Ltac step_by tac :=
  erewrite bind_after_normal by (tac; reflexivity);
  cbn [calls store how app when Z.eqb Pos.eqb ret].

Lemma active_branch_info (w : world) (g : globals)
  (h i h' i' c u : string) :
  menu_state g = 0 ->
  (forall k, display_ok w k = true) ->
  hostname_out w = Some h -> ip_out w = Some i ->
  utf8 w h = Some h' -> utf8 w i = Some i' ->
  cpu_percent w = Some c -> mem_percent w = Some u ->
  active_branch w g =
  mkOutcome
    [disp_show; ask q_hostname; ask q_ip; ask q_cpu_percent;
     ask q_mem_percent; canvas_enter;
     decode_utf8 q_hostname; draw_text 0 0 ("NAME: " ++ h');
     decode_utf8 q_ip; draw_text 0 11 ("IP  : " ++ i');
     draw_text 0 22 ("CPU : " ++ c ++ "% | MEM: " ++ u ++ "%");
     canvas_flush]
    g (Normal tt).
Proof.
  intros Hm Hd Hh Hi Hh' Hi' Hc Hu.
  assert (B : (disp w canvas_enter ;;
               name <- decode w q_hostname h ;;
               disp w (draw_text 0 0 ("NAME: " ++ name)) ;;
               addr <- decode w q_ip i ;;
               disp w (draw_text 0 11 ("IP  : " ++ addr)) ;;
               disp w (draw_text 0 22
                         ("CPU : " ++ c ++ "% | MEM: " ++ u ++ "%")) ;;
               disp w canvas_flush) g =
              mkOutcome
                [canvas_enter;
                 decode_utf8 q_hostname; draw_text 0 0 ("NAME: " ++ h');
                 decode_utf8 q_ip; draw_text 0 11 ("IP  : " ++ i');
                 draw_text 0 22 ("CPU : " ++ c ++ "% | MEM: " ++ u ++ "%");
                 canvas_flush] g (Normal tt)).
  { do 6 step_by ltac:(unfold disp, decode; rewrite ?Hd, ?Hh', ?Hi').
    unfold disp. rewrite Hd. reflexivity. }
  assert (S : screen_info w g =
              mkOutcome
                [ask q_hostname; ask q_ip; ask q_cpu_percent;
                 ask q_mem_percent; canvas_enter;
                 decode_utf8 q_hostname; draw_text 0 0 ("NAME: " ++ h');
                 decode_utf8 q_ip; draw_text 0 11 ("IP  : " ++ i');
                 draw_text 0 22 ("CPU : " ++ c ++ "% | MEM: " ++ u ++ "%");
                 canvas_flush] g (Normal tt)).
  { unfold screen_info.
    do 4 step_by ltac:(unfold telemetry; rewrite ?Hh, ?Hi, ?Hc, ?Hu).
    rewrite (try_after_normal _ _ _ _ B). reflexivity. }
  unfold active_branch.
  step_by ltac:(rewrite try_show).
  step_by idtac. rewrite Hm. step_by ltac:(cbn [Z.eqb when]; rewrite S).
  step_by idtac. rewrite Hm. step_by ltac:(cbn [Z.eqb when]).
  step_by idtac. rewrite Hm. reflexivity.
Qed.

Lemma active_branch_page1 (w : world) (g : globals)
  (up cpu_T : string) (load : list string) :
  menu_state g = 1 ->
  (forall k, display_ok w k = true) ->
  uptime w = Some up -> load_avg w = Some load -> cpu_temp w = Some cpu_T ->
  active_branch w g =
  mkOutcome
    [disp_show; ask q_uptime; ask q_load_avg; ask q_cpu_temp; canvas_enter;
     draw_text 0 0 ("UP  : " ++ up);
     draw_text 0 11 ("LOAD: " ++ String.concat "," load);
     draw_text 0 22 ("TEMP: " ++ cpu_T ++ " Â°C");
     canvas_flush]
    g (Normal tt).
Proof.
  intros Hm Hd Hu Hl Ht.
  assert (B : (disp w canvas_enter ;;
               disp w (draw_text 0 0 ("UP  : " ++ up)) ;;
               disp w (draw_text 0 11 ("LOAD: " ++ String.concat "," load)) ;;
               disp w (draw_text 0 22 ("TEMP: " ++ cpu_T ++ " Â°C")) ;;
               disp w canvas_flush) g =
              mkOutcome
                [canvas_enter;
                 draw_text 0 0 ("UP  : " ++ up);
                 draw_text 0 11 ("LOAD: " ++ String.concat "," load);
                 draw_text 0 22 ("TEMP: " ++ cpu_T ++ " Â°C");
                 canvas_flush] g (Normal tt)).
  { do 4 step_by ltac:(unfold disp; rewrite ?Hd).
    unfold disp. rewrite Hd. reflexivity. }
  assert (S : screen_page1 w g =
              mkOutcome
                [ask q_uptime; ask q_load_avg; ask q_cpu_temp; canvas_enter;
                 draw_text 0 0 ("UP  : " ++ up);
                 draw_text 0 11 ("LOAD: " ++ String.concat "," load);
                 draw_text 0 22 ("TEMP: " ++ cpu_T ++ " Â°C");
                 canvas_flush] g (Normal tt)).
  { unfold screen_page1.
    do 3 step_by ltac:(unfold telemetry; rewrite ?Hu, ?Hl, ?Ht).
    rewrite (try_after_normal _ _ _ _ B). reflexivity. }
  unfold active_branch.
  step_by ltac:(rewrite try_show).
  step_by idtac. rewrite Hm. step_by ltac:(cbn [Z.eqb when]).
  step_by idtac. rewrite Hm.
  step_by ltac:(cbn [Z.eqb Pos.eqb when]; rewrite S).
  step_by idtac. rewrite Hm. reflexivity.
Qed.

Lemma active_branch_page2 (w : world) (g : globals) :
  menu_state g = 2 ->
  (forall k, display_ok w k = true) ->
  active_branch w g =
  mkOutcome
    [disp_show; canvas_enter;
     draw_text 0 0 ".......Menu 2.......";
     draw_text 0 11 "012345678901234567890123";
     draw_text 0 22 "--No info specified--";
     canvas_flush]
    g (Normal tt).
Proof.
  intros Hm Hd.
  assert (S : screen_page2 w g =
              mkOutcome
                [canvas_enter;
                 draw_text 0 0 ".......Menu 2.......";
                 draw_text 0 11 "012345678901234567890123";
                 draw_text 0 22 "--No info specified--";
                 canvas_flush] g (Normal tt)).
  { unfold screen_page2. apply try_after_normal.
    do 4 step_by ltac:(unfold disp; rewrite ?Hd).
    unfold disp. rewrite Hd. reflexivity. }
  unfold active_branch.
  step_by ltac:(rewrite try_show).
  step_by idtac. rewrite Hm. step_by ltac:(cbn [Z.eqb when]).
  step_by idtac. rewrite Hm. step_by ltac:(cbn [Z.eqb Pos.eqb when]).
  step_by idtac. rewrite Hm. cbn [Z.eqb Pos.eqb when]. rewrite S.
  reflexivity.
Qed.

Lemma active_branch_renders (w : world) (g : globals) :
  0 <= menu_state g <= 2 -> answers w (menu_state g) ->
  screen_rendered (calls (active_branch w g)) = Some (menu_state g).
Proof.
  intros Hr [Hd Ha].
  assert (C : menu_state g = 0 \/ menu_state g = 1 \/ menu_state g = 2)
    by lia.
  destruct C as [C|[C|C]]; rewrite C in Ha |- *.
  - destruct Ha as (h & i & Hh & Hi & Hh' & Hi' & Hc & Hu).
    destruct (utf8 w h) as [h'|] eqn:Eh; [|contradiction].
    destruct (utf8 w i) as [i'|] eqn:Ei; [|contradiction].
    destruct (cpu_percent w) as [c|] eqn:Ec; [|contradiction].
    destruct (mem_percent w) as [u|] eqn:Eu; [|contradiction].
    rewrite (active_branch_info w g h i h' i' c u) by auto. reflexivity.
  - destruct Ha as (Hu & Hl & Ht).
    destruct (uptime w) as [up|] eqn:Eu; [|contradiction].
    destruct (load_avg w) as [load|] eqn:El; [|contradiction].
    destruct (cpu_temp w) as [cpu_T|] eqn:Et; [|contradiction].
    rewrite (active_branch_page1 w g up cpu_T load) by auto. reflexivity.
  - rewrite (active_branch_page2 w g) by auto. reflexivity.
Qed.



(** ** Failures *)

Lemma try_how (body : M unit) (g : globals) :
  avoids is_break body -> how (try_except_pass body g) = Normal tt.
Proof.
  intros Hb. unfold try_except_pass. specialize (Hb g).
  destruct (how (body g)) as [[]|[|e]] eqn:E; simpl.
  - exact E.
  - specialize (Hb Broke eq_refl). discriminate Hb.
  - reflexivity.
Qed.

Lemma how_bind {A B} (m : M A) (k : A -> M B) (g : globals) :
  how (bind m k g) =
  match how (m g) with
  | Normal a => how (k a (store (m g)))
  | Abrupt s => Abrupt s
  end.
Proof. unfold bind. destruct (how (m g)); reflexivity. Qed.

Lemma calls_bind {A B} (m : M A) (k : A -> M B) (g : globals) :
  calls (bind m k g) =
  calls (m g) ++
  match how (m g) with
  | Normal a => calls (k a (store (m g)))
  | Abrupt s => []
  end.
Proof.
  unfold bind. destruct (how (m g)); simpl;
    [reflexivity | rewrite app_nil_r; reflexivity].
Qed.

Lemma screen_info_how (w : world) (g : globals) :
  how (screen_info w g) = ends_with (failing_query w 0) /\
  (failing_query w 0 <> None ->
   existsb is_draw (calls (screen_info w g)) = false).
Proof.
  unfold screen_info, failing_query, telemetry, extern_value.
  rewrite !how_bind, !calls_bind. cbn [how store calls].
  destruct (hostname_out w); [|split; reflexivity].
  rewrite !how_bind, !calls_bind. cbn [how store calls].
  destruct (ip_out w); [|split; reflexivity].
  rewrite !how_bind, !calls_bind. cbn [how store calls].
  destruct (cpu_percent w); [|split; reflexivity].
  rewrite !how_bind, !calls_bind. cbn [how store calls].
  destruct (mem_percent w); [|split; reflexivity].
  split; [|intros H; contradiction H; reflexivity].
  apply try_how. unfold disp, decode. walk.
Qed.

Lemma screen_page1_how (w : world) (g : globals) :
  how (screen_page1 w g) = ends_with (failing_query w 1) /\
  (failing_query w 1 <> None ->
   existsb is_draw (calls (screen_page1 w g)) = false).
Proof.
  unfold screen_page1, failing_query, telemetry, extern_value.
  rewrite !how_bind, !calls_bind. cbn [how store calls].
  destruct (uptime w); [|split; reflexivity].
  rewrite !how_bind, !calls_bind. cbn [how store calls].
  destruct (load_avg w); [|split; reflexivity].
  rewrite !how_bind, !calls_bind. cbn [how store calls].
  destruct (cpu_temp w); [|split; reflexivity].
  split; [|intros H; contradiction H; reflexivity].
  apply try_how. unfold disp. walk.
Qed.

Lemma screen_page2_how (w : world) (g : globals) :
  how (screen_page2 w g) = Normal tt.
Proof. unfold screen_page2. apply try_how. unfold disp. walk. Qed.

Lemma active_branch_how (w : world) (g : globals) :
  how (active_branch w g) = ends_with (failing_query w (menu_state g)) /\
  (failing_query w (menu_state g) <> None ->
   existsb is_draw (calls (active_branch w g)) = false).
Proof.
  unfold active_branch.
  rewrite (bind_after_normal _ _ _ _ _ _ (try_show w g)).
  cbn [how calls store app existsb is_draw orb].
  rewrite how_bind, calls_bind. cbn [read ret how calls store app].
  pose proof (screen_info_pure w g) as P0. cbv beta in P0.
  pose proof (screen_page1_pure w g) as P1. cbv beta in P1.
  destruct (screen_info_how w g) as [H0 D0].
  destruct (screen_page1_how w g) as [H1 D1].
  pose proof (screen_page2_how w g) as H2.
  destruct (Z.eq_dec (menu_state g) 0) as [E|E0].
  { rewrite E. cbn [Z.eqb when].
    rewrite how_bind, calls_bind, H0.
    destruct (failing_query w 0) as [q|] eqn:F; cbn [ends_with].
    - split; [reflexivity|]. intros _. rewrite app_nil_r. apply D0.
      discriminate.
    - split; [|intros H; contradiction H; reflexivity].
      rewrite P0. rewrite how_bind. cbn [read ret how calls store app].
      rewrite E. cbn [Z.eqb Pos.eqb when ret how calls store app].
      rewrite how_bind. cbn [read ret how calls store app].
      rewrite how_bind. cbn [read ret how calls store app].
      rewrite E. reflexivity. }
  assert (N0 : (menu_state g =? 0) = false) by (apply Z.eqb_neq; exact E0).
  rewrite N0. cbn [when ret how calls store app].
  rewrite how_bind, calls_bind. cbn [read ret how calls store app].
  rewrite how_bind, calls_bind. cbn [read ret how calls store app].
  destruct (Z.eq_dec (menu_state g) 1) as [E|E1].
  { rewrite E. cbn [Z.eqb Pos.eqb when]. rewrite how_bind, calls_bind, H1.
    destruct (failing_query w 1) as [q|] eqn:F; cbn [ends_with].
    - split; [reflexivity|]. intros _. rewrite app_nil_r. apply D1.
      discriminate.
    - split; [|intros H; contradiction H; reflexivity].
      rewrite P1. rewrite how_bind. cbn [read ret how calls store app].
      rewrite E. reflexivity. }
  assert (N1 : (menu_state g =? 1) = false) by (apply Z.eqb_neq; exact E1).
  rewrite N1. cbn [when ret how calls store app].
  assert (F : failing_query w (menu_state g) = None).
  { unfold failing_query. destruct (menu_state g) as [|[p|p|]|p];
      try reflexivity; congruence. }
  rewrite F. cbn [ends_with].
  split; [|intros H; contradiction H; reflexivity].
  rewrite how_bind. cbn [read ret how calls store app].
  rewrite how_bind. cbn [read ret how calls store app].
  destruct (menu_state g =? 2); cbn [when]; [apply H2 | reflexivity].
Qed.

(** ** One whole pass *)

Lemma led_step_how (w : world) (now : Q) (g : globals) :
  gpio_ok w = true -> how (led_step w now g) = Normal tt.
Proof.
  intros H. unfold led_step, bind, read, when, assign, extern. simpl.
  destruct (Z.b2z (LED_state g) =? py_int now mod 2); simpl;
    [reflexivity | rewrite H; reflexivity].
Qed.

Lemma led_step_no_draw (w : world) (now : Q) :
  emits_only (fun c => match c with set_line_value _ _ => true
                              | _ => false end)
    (led_step w now).
Proof. unfold led_step. walk. Qed.

Lemma loop_body_how (w : world) (clk : loop_clock) (g : globals) :
  how (loop_body w clk g) =
  match how (led_step w (t_led clk) g) with
  | Normal _ =>
      how (display_step w (t_second clk) (t_active clk)
             (store (led_step w (t_led clk) g)))
  | Abrupt s => Abrupt s
  end.
Proof.
  unfold loop_body. rewrite how_bind.
  destruct (how (led_step w (t_led clk) g)) as [[]|s]; [|reflexivity].
  rewrite how_bind.
  destruct (how (display_step w (t_second clk) (t_active clk)
                   (store (led_step w (t_led clk) g)))) as [[]|s];
    reflexivity.
Qed.

Lemma loop_body_calls (w : world) (clk : loop_clock) (g : globals) :
  calls (loop_body w clk g) =
  calls (led_step w (t_led clk) g) ++
  match how (led_step w (t_led clk) g) with
  | Normal _ =>
      calls (display_step w (t_second clk) (t_active clk)
               (store (led_step w (t_led clk) g))) ++
      match how (display_step w (t_second clk) (t_active clk)
                   (store (led_step w (t_led clk) g))) with
      | Normal _ => [sleep (1 # 5)]
      | Abrupt _ => []
      end
  | Abrupt _ => []
  end.
Proof.
  unfold loop_body. rewrite calls_bind.
  destruct (how (led_step w (t_led clk) g)) as [[]|s]; [|reflexivity].
  rewrite calls_bind.
  destruct (how (display_step w (t_second clk) (t_active clk)
                   (store (led_step w (t_led clk) g)))) as [[]|s];
    reflexivity.
Qed.

Lemma main_pass_over (w : world) (clk : loop_clock) (s : system) :
  sys_main s <> Looping -> main_pass w clk s = s.
Proof.
  intros H. unfold main_pass. destruct (sys_main s); congruence.
Qed.





(** ** Display failures *)

Ltac agree_walk :=
  repeat first
    [ progress intros
    | apply agree_refl
    | apply agree_try; [walk | walk | walk | walk]
    | apply agree_bind
    | apply agree_when
    | match goal with |- context [if ?b then _ else _] => destruct b end ].

Lemma loop_body_display_independent
  (w : world) (ok : call -> bool) (clk : loop_clock) :
  agree (loop_body (with_display ok w) clk) (loop_body w clk).
Proof.
  unfold loop_body, display_step, active_branch, idle_branch,
    screen_info, screen_page1, screen_page2, disp, decode.
  agree_walk.
Qed.

Lemma try_calls (body : M unit) (g : globals) :
  calls (try_except_pass body g) = calls (body g).
Proof.
  unfold try_except_pass. destruct (how (body g)) as [a|[|e]]; reflexivity.
Qed.

Lemma active_branch_enters_canvas (w : world) (g : globals) :
  0 <= menu_state g <= 2 ->
  failing_query w (menu_state g) = None ->
  In canvas_enter (calls (active_branch w g)).
Proof.
  intros Hr F.
  assert (C : menu_state g = 0 \/ menu_state g = 1 \/ menu_state g = 2)
    by lia.
  unfold active_branch.
  rewrite (bind_after_normal _ _ _ _ _ _ (try_show w g)).
  cbn [calls]. right.
  destruct C as [C|[C|C]]; rewrite C in F; unfold failing_query in F.
  - step_by idtac. rewrite C. cbn [Z.eqb when].
    rewrite calls_bind. apply in_or_app. left.
    destruct (hostname_out w) as [h|] eqn:Eh; [|discriminate F].
    destruct (ip_out w) as [i|] eqn:Ei; [|discriminate F].
    destruct (cpu_percent w) as [c|] eqn:Ec; [|discriminate F].
    destruct (mem_percent w) as [u|] eqn:Eu; [|discriminate F].
    unfold screen_info.
    do 4 step_by ltac:(unfold telemetry; rewrite ?Eh, ?Ei, ?Ec, ?Eu).
    rewrite try_calls, calls_bind. do 4 right. left. reflexivity.
  - step_by idtac. rewrite C. step_by ltac:(cbn [Z.eqb when]).
    step_by idtac. rewrite C. cbn [Z.eqb Pos.eqb when].
    rewrite calls_bind. apply in_or_app. left.
    destruct (uptime w) as [up|] eqn:Eu; [|discriminate F].
    destruct (load_avg w) as [load|] eqn:El; [|discriminate F].
    destruct (cpu_temp w) as [t|] eqn:Et; [|discriminate F].
    unfold screen_page1.
    do 3 step_by ltac:(unfold telemetry; rewrite ?Eu, ?El, ?Et).
    rewrite try_calls, calls_bind. do 3 right. left. reflexivity.
  - step_by idtac. rewrite C. step_by ltac:(cbn [Z.eqb when]).
    step_by idtac. rewrite C. step_by ltac:(cbn [Z.eqb Pos.eqb when]).
    step_by idtac. rewrite C. cbn [Z.eqb Pos.eqb when].
    unfold screen_page2. rewrite try_calls, calls_bind.
    left. reflexivity.
Qed.

(** ** Start-up *)

Lemma no_show_filter {A} (m : M A) (g : globals) :
  emits_only (fun c => negb (is_show c)) m -> ~ In disp_show (calls (m g)).
Proof. intros H Hin. apply H in Hin. discriminate Hin. Qed.

Lemma startup_never_shows (w : world) :
  emits_only (fun c => negb (is_show c)) (startup w).
Proof. unfold startup, disp. walk. Qed.

Lemma bind_last_second {A B} (m : M A) (k : A -> M B) (v : Z) :
  keeps last_second m ->
  (forall a g, last_second g = v -> last_second (store (k a g)) = v) ->
  forall g, last_second g = v -> last_second (store (bind m k g)) = v.
Proof.
  intros Hm Hk g Hg. unfold bind. specialize (Hm g).
  destruct (how (m g)) as [a|s]; cbn [store].
  - apply Hk. rewrite Hm. exact Hg.
  - rewrite Hm. exact Hg.
Qed.

Lemma startup_last_second (w : world) (g : globals) :
  last_second g = -1 -> last_second (store (startup w g)) = -1.
Proof.
  revert g. unfold startup, disp.
  repeat (apply bind_last_second;
          [first [apply keeps_extern | apply keeps_note] | intros _]).
  intros g _. reflexivity.
Qed.

Lemma idle_pass_never_shows (w : world) (clk : loop_clock) (g : globals) :
  (DISP_TIMEOUT <= t_active clk - disp_timer g)%Q ->
  ~ In disp_show (calls (loop_body w clk g)).
Proof.
  intros Hidle. rewrite loop_body_calls. intros Hin.
  apply in_app_or in Hin. destruct Hin as [Hin|Hin].
  { apply (led_step_no_draw w (t_led clk) g) in Hin. discriminate Hin. }
  destruct (how (led_step w (t_led clk) g)) as [[]|s]; [|destruct Hin].
  set (g1 := store (led_step w (t_led clk) g)) in *.
  assert (Kt : disp_timer g1 = disp_timer g)
    by (apply led_step_keeps; reflexivity).
  assert (Hd : ~ In disp_show
                 (calls (display_step w (t_second clk) (t_active clk) g1))).
  { destruct (Z.eq_dec (py_int (t_second clk - disp_timer g1))
                (last_second g1)) as [E|E].
    - rewrite (display_step_same_second _ _ _ _ E). intros [].
    - rewrite (display_step_new_second _ _ _ _ E). rewrite Kt.
      apply Qlt_bool_false_iff in Hidle. rewrite Hidle.
      rewrite idle_branch_calls. cbn [calls].
      intros [H|H]; [discriminate H|].
      destruct (display_ok w disp_clear); simpl in H;
        [destruct H as [H|[]]; discriminate H | destruct H]. }
  apply in_app_or in Hin. destruct Hin as [Hin|Hin]; [exact (Hd Hin)|].
  destruct (how (display_step w (t_second clk) (t_active clk) g1))
    as [[]|s]; simpl in Hin; [destruct Hin as [H|[]]; discriminate H|].
  destruct Hin.
Qed.

Lemma late_passes_keep_asleep (evs : list sys_event) :
  forall s : system,
    Forall late_pass evs ->
    disp_timer (sys_globals s) = 0%Q ->
    ~ In disp_show (sys_log s) ->
    disp_timer (sys_globals (run evs s)) = 0%Q /\
    ~ In disp_show (sys_log (run evs s)).
Proof.
  induction evs as [|ev evs IH]; intros s Hall Ht Hl; [split; assumption|].
  inversion Hall as [|ev' evs' Hev Hrest]; subst.
  cbn [run fold_left]. apply IH; [exact Hrest | |];
    destruct ev as [pc|w clk]; cbn [late_pass] in Hev; try contradiction;
    cbn [sys_step]; unfold main_pass;
    destruct (sys_main s); try assumption; cbn [loop_condition].
  - assert (K : disp_timer (store (loop_body w clk (sys_globals s)))
                = disp_timer (sys_globals s))
      by (apply loop_body_keeps; reflexivity).
    destruct (how (loop_body w clk (sys_globals s))) as [a|[|e]];
      cbn [sys_globals after_loop]; rewrite K; exact Ht.
  - assert (N : ~ In disp_show (calls (loop_body w clk (sys_globals s)))).
    { apply idle_pass_never_shows. rewrite Ht.
      unfold Qminus. setoid_replace (t_active clk + - 0)%Q with (t_active clk)
        by ring. exact Hev. }
    destruct (how (loop_body w clk (sys_globals s))) as [a|[|e]];
      cbn [sys_log after_loop]; rewrite ?in_app_iff;
      intros H; repeat destruct H as [H|H]; try contradiction;
      try discriminate H.
Qed.

(** C8, as the code has it: at start-up [disp_timer] is 0, not the start
    time, and [menu_state] is 0; so without a button press, passes at
    clock readings of 15 s or more never call [disp.show()]: the first
    pass clears and hides the display; the first press (at 15 s or more)
    sets [menu_state] to 0 and [disp_timer] to the time of the press. *)
Theorem display_sleeps_until_first_press (w : world) :
  (disp_timer (sys_globals (boot w)) = 0%Q /\
   menu_state (sys_globals (boot w)) = 0) /\
  (forall evs : list sys_event,
     Forall late_pass evs ->
     disp_timer (sys_globals (run evs (boot w))) = 0%Q /\
     ~ In disp_show (sys_log (run evs (boot w)))) /\
  (forall (w1 : world) (clk : loop_clock),
     gpio_ok w1 = true ->
     (0 <= t_second clk)%Q -> (DISP_TIMEOUT <= t_active clk)%Q ->
     In disp_clear (calls (loop_body w1 clk (sys_globals (boot w))))) /\
  (forall pc : press_clock,
     (DISP_TIMEOUT <= t_check pc)%Q ->
     let g := store (btn_press pc (sys_globals (boot w))) in
     menu_state g = 0 /\ disp_timer g = t_stamp pc).
Proof.
  destruct (boot_globals w) as (Hled & Ht & Hm).
  assert (Hminus : forall t : Q, (t - 0 == t)%Q) by (intros t; ring).
  split; [split; assumption | split; [|split]].
  - intros evs Hall. apply late_passes_keep_asleep; [exact Hall | exact Ht |].
    unfold boot. cbn [sys_log]. apply no_show_filter.
    apply startup_never_shows.
  - intros w1 clk Hg H0 Hidle.
    set (g := sys_globals (boot w)) in *.
    assert (Hlast : last_second g = -1).
    { unfold g, boot. cbn [sys_globals].
      apply startup_last_second. reflexivity. }
    rewrite loop_body_calls, (led_step_how w1 _ g Hg).
    set (g1 := store (led_step w1 (t_led clk) g)).
    assert (Kt : disp_timer g1 = 0%Q)
      by (unfold g1; rewrite led_step_keeps by reflexivity; exact Ht).
    assert (Kl : last_second g1 = -1)
      by (unfold g1; rewrite led_step_keeps by reflexivity; exact Hlast).
    assert (Hnew : py_int (t_second clk - disp_timer g1) <> last_second g1).
    { rewrite Kt, Kl. rewrite py_int_floor by (rewrite Hminus; exact H0).
      rewrite Hminus.
      pose proof (Qfloor_resp_le 0 _ H0) as Hf.
      change (Qfloor 0) with 0 in Hf. lia. }
    rewrite (display_step_new_second _ _ _ _ Hnew). rewrite Kt.
    assert (E : Qlt_bool (t_active clk - 0) DISP_TIMEOUT = false)
      by (apply Qlt_bool_false_iff; rewrite Hminus; exact Hidle).
    rewrite E, idle_branch_calls. cbn [calls how].
    apply in_or_app. right. left. reflexivity.
  - intros pc Hc. cbv zeta.
    rewrite btn_press_timeout by (rewrite Ht, Hminus; exact Hc).
    split; reflexivity.
Qed.

(** The first pass, 3 s after a start at 1700000000 s, clears the display. *)
Lemma display_sleeps_until_first_press_witness :
  In disp_clear
    (calls (loop_body fair_world
              (mkClock (at_epoch 3000) (at_epoch 3000) (at_epoch 3000))
              (sys_globals (boot fair_world)))).
Proof.
  apply (proj1 (proj2 (proj2 (display_sleeps_until_first_press fair_world)))).
  - reflexivity.
  - qcmp.
  - qcmp.
Defined.

(** C8 as stated fails: the script starts at 1700000000 s; [disp_timer] is
    not that time but 0, and the first pass, 3 s later, does not show the
    Info screen: its calls are the LED write, [disp.clear()], [disp.hide()]
    and the sleep. *)
Lemma display_asleep_after_startup :
  let g := sys_globals (boot fair_world) in
  let now := at_epoch 3000 in
  ~ (disp_timer g == at_epoch 0)%Q /\
  ~ (now - disp_timer g < DISP_TIMEOUT)%Q /\
  calls (loop_body fair_world (mkClock now now now) g) =
  [set_line_value LED_PIN true; disp_clear; disp_hide; sleep (1 # 5)].
Proof.
  cbv zeta. split; [|split].
  - vm_compute. discriminate.
  - vm_compute. discriminate.
  - vm_compute. reflexivity.
Qed.

(** ** The loop never ends by itself *)

Lemma startup_no_break (w : world) : avoids is_break (startup w).
Proof. unfold startup, disp. walk. Qed.

Lemma startup_no_cleanup (w : world) :
  emits_only (fun c => negb (is_cleanup c)) (startup w).
Proof. unfold startup, disp. walk. Qed.

Lemma loop_body_no_cleanup (w : world) (clk : loop_clock) :
  emits_only (fun c => negb (is_cleanup c)) (loop_body w clk).
Proof.
  unfold loop_body, led_step, display_step, active_branch, idle_branch,
    screen_info, screen_page1, screen_page2, disp, telemetry, decode.
  walk.
Qed.

Lemma display_step_how (w : world) (ts ta : Q) (g : globals) :
  how (display_step w ts ta g) = Normal tt \/
  exists q, how (display_step w ts ta g) = Abrupt (Raised (TelemetryError q))
            /\ failing_query w (menu_state g) = Some q.
Proof.
  destruct (Z.eq_dec (py_int (ts - disp_timer g)) (last_second g)) as [E|E].
  - rewrite (display_step_same_second _ _ _ _ E). left. reflexivity.
  - rewrite (display_step_new_second _ _ _ _ E).
    destruct (Qlt_bool (ta - disp_timer g) DISP_TIMEOUT).
    + destruct (active_branch_how w
                  (set_last_second (py_int (ts - disp_timer g)) g))
        as [H _].
      cbn [menu_state set_last_second] in H. rewrite H.
      destruct (failing_query w (menu_state g)) as [q|];
        [right; exists q; split; reflexivity | left; reflexivity].
    + rewrite idle_branch_calls. left. reflexivity.
Qed.

Lemma display_step_naps (w : world) (ts ta : Q) :
  emits_only (fun c => negb (is_nap c)) (display_step w ts ta).
Proof.
  unfold display_step, active_branch, idle_branch,
    screen_info, screen_page1, screen_page2, disp, telemetry, decode.
  walk.
Qed.

Lemma filter_none {A} (f : A -> bool) (l : list A) :
  (forall x, In x l -> negb (f x) = true) -> filter f l = [].
Proof.
  induction l as [|x l IH]; intros H; [reflexivity|].
  simpl. pose proof (H x (or_introl eq_refl)) as Hx.
  apply negb_true_iff in Hx. rewrite Hx. apply IH.
  intros y Hy. apply H. right. exact Hy.
Qed.

Lemma calm_pass (w : world) (clk : loop_clock) (g : globals) :
  gpio_ok w = true -> (forall m, failing_query w m = None) ->
  how (loop_body w clk g) = Normal tt /\
  filter is_nap (calls (loop_body w clk g)) = [sleep (1 # 5)].
Proof.
  intros Hg Hq.
  assert (Hd : how (display_step w (t_second clk) (t_active clk)
                      (store (led_step w (t_led clk) g))) = Normal tt).
  { destruct (display_step_how w (t_second clk) (t_active clk)
                (store (led_step w (t_led clk) g))) as [H|(q & _ & F)];
      [exact H | rewrite Hq in F; discriminate F]. }
  split.
  - rewrite loop_body_how, (led_step_how w _ g Hg). exact Hd.
  - rewrite loop_body_calls, (led_step_how w _ g Hg), Hd.
    rewrite !filter_app.
    rewrite (filter_none is_nap (calls (led_step w (t_led clk) g))).
    + rewrite (filter_none is_nap
                 (calls (display_step w (t_second clk) (t_active clk)
                           (store (led_step w (t_led clk) g))))).
      * reflexivity.
      * intros c Hin. apply (display_step_naps _ _ _ _ _ Hin).
    + intros c Hin. apply (led_step_no_draw w _ g) in Hin.
      destruct c; try discriminate Hin. reflexivity.
Qed.

Lemma sys_step_never_exits (s : system) (ev : sys_event) :
  sys_main s <> Exited /\ ~ In gpio_cleanup (sys_log s) ->
  sys_main (sys_step s ev) <> Exited /\
  ~ In gpio_cleanup (sys_log (sys_step s ev)).
Proof.
  intros [Hm Hl]. destruct ev as [pc|w clk]; cbn [sys_step].
  - unfold watcher_press. cbn [sys_main sys_log].
    rewrite (proj2 (btn_press_normal pc (sys_globals s))), app_nil_r.
    split; assumption.
  - unfold main_pass. destruct (sys_main s) eqn:E;
      [|split; [rewrite E; exact Hm | exact Hl]
       |split; [rewrite E; exact Hm | exact Hl]].
    cbn [loop_condition].
    assert (Hc : ~ In gpio_cleanup (calls (loop_body w clk (sys_globals s)))).
    { intros Hin. apply (loop_body_no_cleanup w clk) in Hin.
      discriminate Hin. }
    pose proof (loop_body_no_break w clk (sys_globals s)) as Hb.
    destruct (how (loop_body w clk (sys_globals s))) as [a|[|e]].
    + cbn [sys_main sys_log]. split; [discriminate|].
      rewrite in_app_iff. intros [H|H]; contradiction.
    + specialize (Hb Broke eq_refl). discriminate Hb.
    + cbn [sys_main sys_log]. split; [discriminate|].
      rewrite in_app_iff. intros [H|H]; contradiction.
Qed.

Lemma run_never_exits (evs : list sys_event) :
  forall s,
    sys_main s <> Exited /\ ~ In gpio_cleanup (sys_log s) ->
    sys_main (run evs s) <> Exited /\ ~ In gpio_cleanup (sys_log (run evs s)).
Proof.
  induction evs as [|ev evs IH]; intros s H; [exact H|].
  cbn [run fold_left]. apply IH. apply sys_step_never_exits. exact H.
Qed.

Lemma run_cons (ev : sys_event) (evs : list sys_event) (s : system) :
  run (ev :: evs) s = run evs (sys_step s ev).
Proof. reflexivity. Qed.

Lemma run_calm (evs : list sys_event) :
  forall s,
    Forall calm evs -> sys_main s = Looping ->
    sys_main (run evs s) = Looping /\
    List.length (filter is_nap (sys_log (run evs s))) =
    (List.length (filter is_nap (sys_log s)) +
     List.length (filter is_pass evs))%nat.
Proof.
  induction evs as [|ev evs IH]; intros s Hall Hs.
  - split; [exact Hs | simpl; lia].
  - inversion Hall as [|ev' evs' Hev Hrest]; subst.
    rewrite run_cons.
    destruct ev as [pc|w clk]; cbn [calm] in Hev; cbn [sys_step].
    + destruct (IH (watcher_press pc s) Hrest Hs) as [H1 H2].
      split; [exact H1|]. rewrite H2. unfold watcher_press.
      cbn [sys_log filter is_pass].
      rewrite (proj2 (btn_press_normal pc (sys_globals s))), app_nil_r.
      reflexivity.
    + destruct Hev as [Hg Hq].
      destruct (calm_pass w clk (sys_globals s) Hg Hq) as [Hh Hn].
      assert (Hp : main_pass w clk s =
                   mkSystem (store (loop_body w clk (sys_globals s)))
                     (sys_log s ++ calls (loop_body w clk (sys_globals s)))
                     Looping).
      { unfold main_pass. rewrite Hs. cbn [loop_condition]. rewrite Hh.
        reflexivity. }
      rewrite Hp.
      destruct (IH (mkSystem (store (loop_body w clk (sys_globals s)))
                      (sys_log s ++ calls (loop_body w clk (sys_globals s)))
                      Looping) Hrest eq_refl) as [H1 H2].
      split; [exact H1|]. rewrite H2. cbn [sys_log filter is_pass].
      rewrite filter_app, Hn, length_app. simpl. lia.
Qed.

(** C9: the condition of the foreground loop holds in every state and its
    body never breaks out, so from start-up on, whatever the presses and
    passes, the script is never past the loop and [GPIO.cleanup()] is never
    called (an exception that escapes ends the main thread without it);
    and as long as nothing raises, every pass runs to its sleep and the
    loop is still going. *)
Theorem cleanup_is_unreachable (w : world) (evs : list sys_event) :
  (forall g, loop_condition g = true) /\
  (forall w' clk g, how (loop_body w' clk g) <> Abrupt Broke) /\
  sys_main (run evs (boot w)) <> Exited /\
  ~ In gpio_cleanup (sys_log (run evs (boot w))) /\
  (how (startup w initial_globals) = Normal tt -> Forall calm evs ->
   sys_main (run evs (boot w)) = Looping /\
   List.length (filter is_nap (sys_log (run evs (boot w)))) =
   List.length (filter is_pass evs)).
Proof.
  assert (Hboot : sys_main (boot w) <> Exited /\
                  ~ In gpio_cleanup (sys_log (boot w))).
  { unfold boot. cbn [sys_main sys_log]. split.
    - pose proof (startup_no_break w initial_globals) as Hb.
      destruct (how (startup w initial_globals)) as [a|[|e]];
        [discriminate | | discriminate].
      specialize (Hb Broke eq_refl). discriminate Hb.
    - intros Hin. apply (startup_no_cleanup w) in Hin. discriminate Hin. }
  split; [reflexivity | split; [|split; [|split]]].
  - intros w' clk g H.
    apply (loop_body_no_break w' clk g) in H. discriminate H.
  - apply run_never_exits. exact Hboot.
  - apply run_never_exits. exact Hboot.
  - intros Hs Hall.
    assert (Hl : sys_main (boot w) = Looping)
      by (unfold boot; cbn [sys_main]; rewrite Hs; reflexivity).
    destruct (run_calm evs (boot w) Hall Hl) as [H1 H2].
    split; [exact H1|]. rewrite H2.
    assert (Hn : filter is_nap (sys_log (boot w)) = []).
    { unfold boot. cbn [sys_log]. apply filter_none.
      intros c Hin.
      assert (E : emits_only (fun c => negb (is_nap c)) (startup w))
        by (unfold startup, disp; walk).
      apply (E _ _ Hin). }
    rewrite Hn. reflexivity.
Qed.

(** After start-up, a press and three passes in which nothing fails, the
    loop is still going and has slept three times. *)
Lemma cleanup_is_unreachable_witness :
  let evs := [pass_at fair_world (at_epoch 3000);
              press_at (at_epoch 3100);
              pass_at fair_world (at_epoch 3200);
              pass_at fair_world (at_epoch 3400)] in
  sys_main (run evs (boot fair_world)) = Looping /\
  List.length (filter is_nap (sys_log (run evs (boot fair_world)))) = 3%nat.
Proof.
  cbv zeta.
  apply (proj2 (proj2 (proj2 (proj2
           (cleanup_is_unreachable fair_world
              [pass_at fair_world (at_epoch 3000);
               press_at (at_epoch 3100);
               pass_at fair_world (at_epoch 3200);
               pass_at fair_world (at_epoch 3400)]))))).
  - reflexivity.
  - repeat constructor; intros m; destruct m as [|[p|p|]|p]; reflexivity.
Defined.

(** * Further properties of the script *)

(** ** Presses in a row *)

Lemma press_all_cons (pc : press_clock) (pcs : list press_clock)
  (g : globals) :
  press_all (pc :: pcs) g = press_all pcs (store (btn_press pc g)).
Proof. reflexivity. Qed.

Lemma press_all_app (a b : list press_clock) (g : globals) :
  press_all (a ++ b) g = press_all b (press_all a g).
Proof. unfold press_all. apply fold_left_app. Qed.

Lemma quick_presses_menu (pcs : list press_clock) :
  forall g,
    0 <= menu_state g <= 2 -> quick (disp_timer g) pcs ->
    menu_state (press_all pcs g) =
    (menu_state g + Z.of_nat (List.length pcs)) mod 3.
Proof.
  induction pcs as [|pc pcs IH]; intros g Hm Hq.
  - simpl. rewrite Z.add_0_r. symmetry. apply Z.mod_small. lia.
  - destruct Hq as [Hc Hq]. rewrite press_all_cons.
    assert (Hs : disp_timer (store (btn_press pc g)) = t_stamp pc)
      by (rewrite (btn_press_awake _ _ Hc); reflexivity).
    assert (Hn : menu_state (store (btn_press pc g))
                 = (menu_state g + 1) mod 3).
    { rewrite (btn_press_awake _ _ Hc). simpl.
      destruct (menu_state g + 1 =? 3) eqn:E; simpl.
      - apply Z.eqb_eq in E. rewrite E. reflexivity.
      - apply Z.eqb_neq in E. rewrite Z.mod_small; lia. }
    rewrite IH.
    + rewrite Hn. cbn [List.length]. rewrite Nat2Z.inj_succ.
      rewrite Zplus_mod_idemp_l. f_equal. lia.
    + apply btn_press_menu_range. exact Hm.
    + rewrite Hs. exact Hq.
Qed.

(** X1: presses that each come within 15 s of the one before advance the
    menu by their number modulo 3, from any screen; three of them come
    back to the screen they started from, and the timer ends at the last
    press. *)
Theorem quick_presses_cycle (pcs : list press_clock) (g : globals) :
  0 <= menu_state g <= 2 -> quick (disp_timer g) pcs ->
  menu_state (press_all pcs g) =
  (menu_state g + Z.of_nat (List.length pcs)) mod 3 /\
  (List.length pcs = 3%nat -> menu_state (press_all pcs g) = menu_state g) /\
  (pcs <> [] ->
   disp_timer (press_all pcs g) = t_stamp (last pcs (mkPress 0 0))).
Proof.
  intros Hm Hq. split; [|split].
  - apply quick_presses_menu; assumption.
  - intros H3. rewrite (quick_presses_menu pcs g Hm Hq), H3.
    change (Z.of_nat 3) with (1 * 3). rewrite Z.mod_add by lia.
    apply Z.mod_small. lia.
  - intros Hne. clear Hm Hq. revert g.
    induction pcs as [|pc pcs IH]; intros g; [contradiction|].
    rewrite press_all_cons. destruct pcs as [|pc2 pcs].
    + unfold press_all. cbn [fold_left last].
      destruct (Qlt_le_dec (t_check pc - disp_timer g) DISP_TIMEOUT) as [H|H].
      * rewrite (btn_press_awake _ _ H). reflexivity.
      * rewrite (btn_press_timeout _ _ H). reflexivity.
    + rewrite IH by discriminate. reflexivity.
Qed.

(** From Page 1, presses at 1 s, 2 s and 3 s come back to Page 1. *)
Lemma quick_presses_cycle_witness :
  menu_state (press_all [mkPress 1 1; mkPress 2 2; mkPress 3 3]
                (mkGlobals false 0 1 0)) = 1.
Proof.
  apply (proj1 (proj2 (quick_presses_cycle
                         [mkPress 1 1; mkPress 2 2; mkPress 3 3]
                         (mkGlobals false 0 1 0)
                         ltac:(simpl; lia)
                         ltac:(simpl; repeat split; reflexivity)))).
  reflexivity.
Defined.

(** X2: the two threads write different variables: [btn_press] changes
    only [menu_state] and [disp_timer], makes no call to the outside and
    never raises; a pass of the loop, however it ends, changes only
    [LED_state] and [last_second]. *)
Theorem writers_are_separate :
  (forall pc g,
     LED_state (store (btn_press pc g)) = LED_state g /\
     last_second (store (btn_press pc g)) = last_second g /\
     calls (btn_press pc g) = [] /\
     how (btn_press pc g) = Normal tt) /\
  (forall w clk g,
     menu_state (store (loop_body w clk g)) = menu_state g /\
     disp_timer (store (loop_body w clk g)) = disp_timer g).
Proof.
  split.
  - intros pc g. destruct (btn_press_normal pc g) as [Hh Hc].
    assert (K : LED_state (store (btn_press pc g)) = LED_state g /\
                last_second (store (btn_press pc g)) = last_second g).
    { destruct (Qlt_le_dec (t_check pc - disp_timer g) DISP_TIMEOUT) as [H|H].
      - rewrite (btn_press_awake _ _ H). simpl.
        destruct (menu_state g + 1 =? 3); split; reflexivity.
      - rewrite (btn_press_timeout _ _ H). split; reflexivity. }
    destruct K as [K1 K2]. repeat split; assumption.
  - intros w clk g. split; apply loop_body_keeps; reflexivity.
Qed.

(** ** The watcher over whole batches *)

Lemma presses_of_app (a b : list (edge_event * press_clock)) :
  presses_of (a ++ b) = presses_of a ++ presses_of b.
Proof. unfold presses_of. rewrite filter_app, map_app. reflexivity. Qed.

Lemma for_ready_no_done (fds : list ready_fd) :
  forall g,
    existsb is_done fds = false ->
    store (for_ready fds g) = press_all (presses_of (events_in fds)) g /\
    how (for_ready fds g) = Normal false /\
    filter is_callback (calls (for_ready fds g)) =
    map (fun _ => btn_press_called) (presses_of (events_in fds)).
Proof.
  induction fds as [|fd fds IH]; intros g Hd.
  - repeat split.
  - destruct fd as [|events]; [discriminate Hd|].
    cbn [existsb is_done orb] in Hd.
    cbn [for_ready].
    rewrite (bind_after_normal _ _ g [read_edge_events] g tt eq_refl).
    rewrite (bind_after_normal _ _ _ _ _ _ (for_events_outcome events g)).
    cbn [calls store how].
    destruct (IH (press_all (presses_of events) g) Hd) as (Hs & Hh & Hc).
    unfold events_in. cbn [map events_of List.concat].
    fold (events_in fds). rewrite presses_of_app, press_all_app, map_app.
    split; [exact Hs | split; [exact Hh|]].
    cbn [app filter is_callback]. rewrite filter_app, Hc. f_equal.
    clear. induction (presses_of events) as [|p l IHl]; [reflexivity|].
    simpl. f_equal. exact IHl.
Qed.

Lemma for_ready_done (pre rest : list ready_fd) :
  forall g,
    existsb is_done pre = false ->
    store (for_ready (pre ++ done_fd :: rest) g) = store (for_ready pre g) /\
    calls (for_ready (pre ++ done_fd :: rest) g) = calls (for_ready pre g) /\
    how (for_ready (pre ++ done_fd :: rest) g) = Normal true.
Proof.
  induction pre as [|fd pre IH]; intros g Hd.
  - repeat split.
  - destruct fd as [|events]; [discriminate Hd|].
    cbn [existsb is_done orb] in Hd. cbn [app for_ready].
    rewrite !(bind_after_normal _ _ g [read_edge_events] g tt eq_refl).
    rewrite !(bind_after_normal _ _ _ _ _ _ (for_events_outcome events g)).
    cbn [calls store how].
    destruct (IH (press_all (presses_of events) g) Hd) as (Hs & Hc & Hh).
    rewrite Hs, Hc, Hh. repeat split.
Qed.

Lemma async_watch_cons (fds : list ready_fd) (later : list (list ready_fd))
  (g : globals) :
  async_watch_line_value (fds :: later) g =
  (finished <- for_ready fds ;;
   if finished then ret true else async_watch_line_value later) g.
Proof. reflexivity. Qed.

Lemma async_watch_no_done (wakeups : list (list ready_fd)) :
  forall g,
    Forall (fun fds => existsb is_done fds = false) wakeups ->
    store (async_watch_line_value wakeups g) =
    press_all (presses_of (events_in (List.concat wakeups))) g /\
    how (async_watch_line_value wakeups g) = Normal false.
Proof.
  induction wakeups as [|fds later IH]; intros g Hall.
  - split; reflexivity.
  - inversion Hall as [|x l Hd Hrest]; subst.
    destruct (for_ready_no_done fds g Hd) as (Hs & Hh & _).
    rewrite async_watch_cons. unfold bind. rewrite Hh. cbn [store how].
    destruct (IH (store (for_ready fds g)) Hrest) as [Hs' Hh'].
    rewrite Hs', Hh', Hs. split; [|reflexivity].
    cbn [List.concat]. unfold events_in. rewrite map_app, concat_app.
    fold (events_in fds). fold (events_in (List.concat later)).
    rewrite presses_of_app, press_all_app. reflexivity.
Qed.

(** X3: as long as the cancellation descriptor is not ready the watcher
    stays in its loop, and what it has done to the globals is exactly
    [btn_press] run once for each falling edge on the button line, in the
    order the events arrived, with the clock readings of each. *)
Theorem watcher_presses_in_order
  (wakeups : list (list ready_fd)) (g : globals) :
  Forall (fun fds => existsb is_done fds = false) wakeups ->
  store (async_watch_line_value wakeups g) =
  press_all (presses_of (events_in (List.concat wakeups))) g /\
  how (async_watch_line_value wakeups g) = Normal false.
Proof. apply async_watch_no_done. Qed.

(** A rising edge, a falling edge at 20 s and one at 21 s, in two wake-ups:
    the menu goes from Info to Page 1, the timer is at 21 s. *)
Lemma watcher_presses_in_order_witness :
  let g := store (async_watch_line_value
                    [[request_fd [(mkEdge 27 RISING_EDGE, mkPress 19 19);
                                  (mkEdge 27 FALLING_EDGE, mkPress 20 20)]];
                     [request_fd [(mkEdge 27 FALLING_EDGE, mkPress 21 21)]]]
                    initial_globals) in
  menu_state g = 1 /\ disp_timer g = 21%Q.
Proof.
  cbv zeta.
  rewrite (proj1 (watcher_presses_in_order
                    [[request_fd [(mkEdge 27 RISING_EDGE, mkPress 19 19);
                                  (mkEdge 27 FALLING_EDGE, mkPress 20 20)]];
                     [request_fd [(mkEdge 27 FALLING_EDGE, mkPress 21 21)]]]
                    initial_globals
                    ltac:(repeat constructor))).
  split; reflexivity.
Defined.

(** X4: when the cancellation descriptor is ready the watcher returns; the
    descriptors listed before it in the same result of [poll] are still
    served, the ones listed after it and all later wake-ups are not: no
    event of theirs is read and no callback is made for them. *)
Theorem watcher_stops_at_done
  (pre rest : list ready_fd) (later : list (list ready_fd)) (g : globals) :
  existsb is_done pre = false ->
  let r := async_watch_line_value ((pre ++ done_fd :: rest) :: later) g in
  how r = Normal true /\
  calls r = calls (for_ready pre g) /\
  store r = press_all (presses_of (events_in pre)) g.
Proof.
  intros Hd. cbv zeta. rewrite async_watch_cons.
  destruct (for_ready_done pre rest g Hd) as (Hs & Hc & Hh).
  destruct (for_ready_no_done pre g Hd) as (Hs' & _ & _).
  unfold bind. rewrite Hh. cbn [calls store how ret].
  rewrite app_nil_r, Hc, Hs, Hs'. repeat split.
Qed.

(** Cancellation arrives together with a falling edge listed after it:
    the watcher returns and the press is lost. *)
Lemma watcher_stops_at_done_witness :
  let r := async_watch_line_value
             [[done_fd;
               request_fd [(mkEdge 27 FALLING_EDGE, mkPress 20 20)]]]
             initial_globals in
  how r = Normal true /\ calls r = [] /\ store r = initial_globals.
Proof.
  exact (watcher_stops_at_done []
           [request_fd [(mkEdge 27 FALLING_EDGE, mkPress 20 20)]] []
           initial_globals eq_refl).
Defined.

(** ** The thread around the watcher *)

Lemma async_watch_how (wakeups : list (list ready_fd)) :
  forall g,
    how (async_watch_line_value wakeups g) =
    Normal (existsb (existsb is_done) wakeups).
Proof.
  assert (R : forall fds g,
             how (for_ready fds g) = Normal (existsb is_done fds)).
  { induction fds as [|fd fds IH]; intros g; [reflexivity|].
    destruct fd as [|events]; [reflexivity|]. cbn [for_ready].
    rewrite (bind_after_normal _ _ g [read_edge_events] g tt eq_refl).
    rewrite (bind_after_normal _ _ _ _ _ _ (for_events_outcome events g)).
    cbn [how existsb is_done orb]. apply IH. }
  induction wakeups as [|fds later IH]; intros g; [reflexivity|].
  rewrite async_watch_cons, how_bind, R. cbn [existsb].
  destruct (existsb is_done fds); [reflexivity | apply IH].
Qed.

(** X5: when the line request fails with an [OSError] the watcher thread
    prints the error instead of raising it, leaves the globals untouched,
    reads no edge event (the button is dead while the rest of the script
    goes on) and ends; when the cancellation descriptor becomes ready the
    thread ends too; whenever it ends this way, the last thing it prints is
    "Background thread exiting".  With the request granted and the
    cancellation descriptor never ready, the thread is still in [poll],
    having served every press so far. *)
Theorem bg_thread_exit
  (request_error : option string) (wakeups : list (list ready_fd))
  (g : globals) :
  let t := bg_thread request_error wakeups g in
  (request_error <> None \/ existsb (existsb is_done) wakeups = true ->
   thread_how t = finished /\
   last (thread_log t) (request_lines 0) =
   print "Background thread exiting") /\
  (forall text, request_error = Some text ->
     thread_store t = g /\
     thread_log t = [request_lines BTN_PIN; print text;
                     print "Background thread exiting"]) /\
  (request_error = None ->
   Forall (fun fds => existsb is_done fds = false) wakeups ->
   thread_how t = blocked_in_poll /\
   filter is_print (thread_log t) = [] /\
   thread_store t =
   press_all (presses_of (events_in (List.concat wakeups))) g).
Proof.
  cbv zeta. unfold bg_thread. destruct request_error as [text|].
  - split; [intros _; split; reflexivity|].
    split; [|discriminate].
    intros t H. injection H as <-. split; reflexivity.
  - split; [|split; [discriminate|]].
    + intros [H|H]; [contradiction H; reflexivity|].
      rewrite async_watch_how, H. cbn [thread_how thread_log].
      split; [reflexivity | apply last_last].
    + intros _ Hall.
      destruct (async_watch_no_done wakeups g Hall) as [Hs Hh].
      rewrite Hh. cbn [thread_how thread_log thread_store filter is_print].
      split; [reflexivity | split; [|exact Hs]].
      induction (calls (async_watch_line_value wakeups g)) as [|c l IH];
        [reflexivity | exact IH].
Qed.

(** The line is busy: the thread prints the error and its last words. *)
Lemma bg_thread_exit_witness :
  thread_log (bg_thread (Some "Device or resource busy"%string)
                [[request_fd [(mkEdge 27 FALLING_EDGE, mkPress 20 20)]]]
                initial_globals) =
  [request_lines BTN_PIN; print "Device or resource busy";
   print "Background thread exiting"].
Proof.
  apply (proj1 (proj2
           (bg_thread_exit (Some "Device or resource busy"%string)
              [[request_fd [(mkEdge 27 FALLING_EDGE, mkPress 20 20)]]]
              initial_globals))
           "Device or resource busy"%string eq_refl).
Defined.

(** ** Naming an edge *)

(** X6: [edge_type_str] never answers "Unknown" for an edge event, gives
    different names to the two kinds of edge, and answers "Falling"
    exactly for the events on the button line that make the watcher call
    [btn_press]. *)
Theorem edge_type_str_names_the_edge
  (event : edge_event) (pc : press_clock) (g : globals) :
  edge_type_str event <> "Unknown"%string /\
  (edge_type_str event = "Rising"%string <->
   event_type event = RISING_EDGE) /\
  (line_offset event = BTN_PIN ->
   (edge_type_str event = "Falling"%string <->
    In btn_press_called (calls (for_events [(event, pc)] g)))).
Proof.
  rewrite for_events_outcome. unfold presses_of, falling_on_button.
  cbn [filter fst calls]. unfold edge_type_str.
  destruct (event_type event); cbn [edge_type_is is_falling].
  - split; [discriminate|]. split; [split; reflexivity|].
    intros ->. rewrite Z.eqb_refl. cbn [andb map].
    split; [discriminate | intros []].
  - split; [discriminate|]. split; [split; discriminate|].
    intros ->. rewrite Z.eqb_refl. cbn [andb map snd].
    split; [intros _; left; reflexivity | reflexivity].
Qed.

(** A falling edge on line 27 is named "Falling". *)
Lemma edge_type_str_names_the_edge_witness :
  edge_type_str (mkEdge 27 FALLING_EDGE) = "Falling"%string.
Proof.
  apply (proj2 (proj2 (edge_type_str_names_the_edge
                         (mkEdge 27 FALLING_EDGE) (mkPress 20 20)
                         initial_globals)) eq_refl).
  rewrite for_events_outcome. left. reflexivity.
Defined.

(** ** The calls of a screen, one statement after the other *)

Lemma disp_then_calls {B} (w : world) (c : call) (k : M B) (g : globals) :
  calls ((disp w c ;; k) g) =
  c :: if display_ok w c then calls (k g) else [].
Proof.
  rewrite calls_bind. unfold disp, extern. cbn [calls how store app].
  destruct (display_ok w c); reflexivity.
Qed.

Lemma disp_then_how {B} (w : world) (c : call) (k : M B) (g : globals) :
  how ((disp w c ;; k) g) =
  if display_ok w c then how (k g) else Abrupt (Raised DisplayError).
Proof.
  rewrite how_bind. unfold disp, extern. cbn [calls how store].
  destruct (display_ok w c); reflexivity.
Qed.

Lemma decode_then_calls {B} (w : world) (q : query) (bytes : string)
  (k : string -> M B) (g : globals) :
  calls ((text <- decode w q bytes ;; k text) g) =
  decode_utf8 q ::
  match utf8 w bytes with Some text => calls (k text g) | None => [] end.
Proof.
  rewrite calls_bind. unfold decode, extern_value. cbn [calls how store app].
  destruct (utf8 w bytes); reflexivity.
Qed.

Lemma telemetry_then_calls {A B} (q : query) (answer : option A)
  (k : A -> M B) (g : globals) :
  calls ((a <- telemetry q answer ;; k a) g) =
  ask q :: match answer with Some a => calls (k a g) | None => [] end.
Proof.
  rewrite calls_bind. unfold telemetry, extern_value.
  cbn [calls how store app]. destruct answer; reflexivity.
Qed.

Lemma disp_last_calls (w : world) (c : call) (g : globals) :
  calls (disp w c g) = [c].
Proof. reflexivity. Qed.

Lemma screen_page2_calls (w : world) (g : globals) :
  calls (screen_page2 w g) =
  canvas_enter ::
  if display_ok w canvas_enter then
    draw_text 0 0 ".......Menu 2......." ::
    if display_ok w (draw_text 0 0 ".......Menu 2.......") then
      draw_text 0 11 "012345678901234567890123" ::
      if display_ok w (draw_text 0 11 "012345678901234567890123") then
        draw_text 0 22 "--No info specified--" ::
        if display_ok w (draw_text 0 22 "--No info specified--") then
          [canvas_flush]
        else []
      else []
    else []
  else [].
Proof.
  unfold screen_page2. rewrite try_calls.
  rewrite !disp_then_calls, disp_last_calls. reflexivity.
Qed.

Lemma screen_page1_calls (w : world) (g : globals) :
  calls (screen_page1 w g) =
  ask q_uptime ::
  match uptime w with
  | None => []
  | Some up =>
      ask q_load_avg ::
      match load_avg w with
      | None => []
      | Some load =>
          ask q_cpu_temp ::
          match cpu_temp w with
          | None => []
          | Some cpu_T =>
              canvas_enter ::
              if display_ok w canvas_enter then
                draw_text 0 0 ("UP  : " ++ up) ::
                if display_ok w (draw_text 0 0 ("UP  : " ++ up)) then
                  draw_text 0 11 ("LOAD: " ++ String.concat "," load) ::
                  if display_ok w
                       (draw_text 0 11 ("LOAD: " ++ String.concat "," load))
                  then
                    draw_text 0 22 ("TEMP: " ++ cpu_T ++ " Â°C") ::
                    if display_ok w
                         (draw_text 0 22 ("TEMP: " ++ cpu_T ++ " Â°C"))
                    then [canvas_flush] else []
                  else []
                else []
              else []
          end
      end
  end.
Proof.
  unfold screen_page1. rewrite telemetry_then_calls.
  destruct (uptime w) as [up|]; [|reflexivity].
  rewrite telemetry_then_calls.
  destruct (load_avg w) as [load|]; [|reflexivity].
  rewrite telemetry_then_calls.
  destruct (cpu_temp w) as [cpu_T|]; [|reflexivity].
  rewrite try_calls, !disp_then_calls, disp_last_calls. reflexivity.
Qed.

Lemma screen_info_calls (w : world) (g : globals) :
  calls (screen_info w g) =
  ask q_hostname ::
  match hostname_out w with
  | None => []
  | Some h =>
      ask q_ip ::
      match ip_out w with
      | None => []
      | Some i =>
          ask q_cpu_percent ::
          match cpu_percent w with
          | None => []
          | Some c =>
              ask q_mem_percent ::
              match mem_percent w with
              | None => []
              | Some u =>
                  canvas_enter ::
                  if display_ok w canvas_enter then
                    decode_utf8 q_hostname ::
                    match utf8 w h with
                    | None => []
                    | Some name =>
                        draw_text 0 0 ("NAME: " ++ name) ::
                        if display_ok w (draw_text 0 0 ("NAME: " ++ name))
                        then
                          decode_utf8 q_ip ::
                          match utf8 w i with
                          | None => []
                          | Some addr =>
                              draw_text 0 11 ("IP  : " ++ addr) ::
                              if display_ok w
                                   (draw_text 0 11 ("IP  : " ++ addr))
                              then
                                draw_text 0 22
                                  ("CPU : " ++ c ++ "% | MEM: " ++ u ++ "%")
                                :: if display_ok w
                                        (draw_text 0 22
                                           ("CPU : " ++ c ++ "% | MEM: "
                                            ++ u ++ "%"))
                                   then [canvas_flush] else []
                              else []
                          end
                        else []
                    end
                  else []
              end
          end
      end
  end.
Proof.
  unfold screen_info. rewrite telemetry_then_calls.
  destruct (hostname_out w) as [h|]; [|reflexivity].
  rewrite telemetry_then_calls.
  destruct (ip_out w) as [i|]; [|reflexivity].
  rewrite telemetry_then_calls.
  destruct (cpu_percent w) as [c|]; [|reflexivity].
  rewrite telemetry_then_calls.
  destruct (mem_percent w) as [u|]; [|reflexivity].
  rewrite try_calls, disp_then_calls, decode_then_calls.
  destruct (utf8 w h) as [name|]; [|reflexivity].
  rewrite disp_then_calls, decode_then_calls.
  destruct (utf8 w i) as [addr|]; [|reflexivity].
  rewrite !disp_then_calls, disp_last_calls. reflexivity.
Qed.

(** ** The three tests on [menu_state] act as a switch *)

Lemma tail_after_info (w : world) (g : globals) :
  menu_state g = 0 ->
  (m1 <- read menu_state ;;
   when (m1 =? 1) (screen_page1 w) ;;
   m2 <- read menu_state ;;
   when (m2 =? 2) (screen_page2 w)) g = mkOutcome [] g (Normal tt).
Proof.
  intros E. step_by idtac. rewrite E. step_by ltac:(cbn [Z.eqb when]).
  step_by idtac. rewrite E. reflexivity.
Qed.

Lemma tail_after_page1 (w : world) (g : globals) :
  menu_state g = 1 ->
  (m2 <- read menu_state ;; when (m2 =? 2) (screen_page2 w)) g =
  mkOutcome [] g (Normal tt).
Proof. intros E. step_by idtac. rewrite E. reflexivity. Qed.

Lemma selected_screen_pure (w : world) (m : Z) (g : globals) :
  store (selected_screen w m g) = g.
Proof.
  destruct m as [|[p|p|]|p]; try reflexivity; cbn [selected_screen].
  - apply screen_info_pure.
  - destruct p as [p|p|]; try reflexivity. apply screen_page2_pure.
  - apply screen_page1_pure.
Qed.

Lemma bind_silent {A B} (m : M A) (k : A -> M B) (g g1 : globals) (a : A) :
  m g = mkOutcome [] g1 (Normal a) -> bind m k g = k a g1.
Proof.
  intros H. unfold bind. rewrite H. cbn [how store calls app].
  destruct (k a g1); reflexivity.
Qed.

Lemma bind_silent_tail (m : M unit) (k : unit -> M unit) (g : globals) :
  k tt (store (m g)) = mkOutcome [] (store (m g)) (Normal tt) ->
  bind m k g = m g.
Proof.
  intros H. unfold bind.
  destruct (m g) as [cs g1 [[]|s]]; cbn [how store calls] in *.
  - rewrite H. cbn [how store calls]. rewrite app_nil_r. reflexivity.
  - reflexivity.
Qed.

Lemma menu_switch (w : world) (g : globals) :
  (m0 <- read menu_state ;;
   when (m0 =? 0) (screen_info w) ;;
   m1 <- read menu_state ;;
   when (m1 =? 1) (screen_page1 w) ;;
   m2 <- read menu_state ;;
   when (m2 =? 2) (screen_page2 w)) g =
  selected_screen w (menu_state g) g.
Proof.
  rewrite (bind_silent _ _ g g (menu_state g) eq_refl).
  destruct (Z.eq_dec (menu_state g) 0) as [E0|E0].
  { rewrite E0. cbn [Z.eqb when selected_screen].
    apply bind_silent_tail.
    pose proof (screen_info_pure w g) as P. cbv beta in P. rewrite P.
    apply tail_after_info. exact E0. }
  assert (N0 : (menu_state g =? 0) = false) by (apply Z.eqb_neq; exact E0).
  rewrite N0. cbn [when].
  rewrite (bind_silent _ _ g g tt eq_refl).
  rewrite (bind_silent _ _ g g (menu_state g) eq_refl).
  destruct (Z.eq_dec (menu_state g) 1) as [E1|E1].
  { rewrite E1. cbn [Z.eqb Pos.eqb when selected_screen].
    apply bind_silent_tail.
    pose proof (screen_page1_pure w g) as P. cbv beta in P. rewrite P.
    apply tail_after_page1. exact E1. }
  assert (N1 : (menu_state g =? 1) = false) by (apply Z.eqb_neq; exact E1).
  rewrite N1. cbn [when].
  rewrite (bind_silent _ _ g g tt eq_refl).
  rewrite (bind_silent _ _ g g (menu_state g) eq_refl).
  destruct (Z.eq_dec (menu_state g) 2) as [E2|E2].
  { rewrite E2. reflexivity. }
  assert (N2 : (menu_state g =? 2) = false) by (apply Z.eqb_neq; exact E2).
  rewrite N2. cbn [when].
  destruct (menu_state g) as [|[p|p|]|p]; try reflexivity; try congruence.
  destruct p as [p|p|]; try reflexivity; congruence.
Qed.

Lemma active_branch_selected (w : world) (g : globals) :
  calls (active_branch w g) =
  disp_show :: calls (selected_screen w (menu_state g) g) /\
  how (active_branch w g) = how (selected_screen w (menu_state g) g) /\
  store (active_branch w g) = g.
Proof.
  unfold active_branch.
  rewrite (bind_after_normal _ _ _ _ _ _ (try_show w g)).
  rewrite menu_switch. cbn [calls how store app].
  rewrite selected_screen_pure. repeat split.
Qed.

(** Splits every test that the goal still branches on. *)
Ltac split_cases :=
  repeat match goal with
         | |- context [match ?x with _ => _ end] =>
             let E := fresh "E" in destruct x eqn:E
         end.

Lemma display_step_cases (w : world) (ts ta : Q) (g : globals) :
  let g1 := set_last_second (py_int (ts - disp_timer g)) g in
  (py_int (ts - disp_timer g) = last_second g /\
   display_step w ts ta g = mkOutcome [] g (Normal tt)) \/
  (py_int (ts - disp_timer g) <> last_second g /\
   (ta - disp_timer g < DISP_TIMEOUT)%Q /\
   display_step w ts ta g = active_branch w g1) \/
  (py_int (ts - disp_timer g) <> last_second g /\
   ~ (ta - disp_timer g < DISP_TIMEOUT)%Q /\
   display_step w ts ta g =
   mkOutcome
     (disp_clear :: if display_ok w disp_clear then [disp_hide] else [])
     g1 (Normal tt)).
Proof.
  cbv zeta.
  destruct (Z.eq_dec (py_int (ts - disp_timer g)) (last_second g)) as [E|E].
  - left. split; [exact E | apply display_step_same_second; exact E].
  - right. rewrite (display_step_new_second _ _ _ _ E).
    destruct (Qlt_bool (ta - disp_timer g) DISP_TIMEOUT) eqn:L.
    + left. apply Qlt_bool_iff in L. repeat split; assumption.
    + right. apply Qlt_bool_false_iff in L.
      split; [exact E | split; [apply Qle_not_lt; exact L|]].
      apply idle_branch_calls.
Qed.

Ltac flushed_case :=
  split_cases;
  cbn [existsb is_flush orb filter is_text List.length app hd_error
       unanswered];
  try discriminate;
  intros _; unfold texts_ok;
  cbn [forallb is_text negb orb andb];
  repeat match goal with
         | H : display_ok _ _ = true |- _ => rewrite H; clear H
         end;
  repeat split.

Lemma flushed_screen (w : world) (m : Z) (g : globals) :
  existsb is_flush (calls (selected_screen w m g)) = true ->
  List.length (filter is_text (calls (selected_screen w m g))) = 3%nat /\
  texts_ok w (calls (selected_screen w m g)) = true /\
  failing_query w m = None.
Proof.
  unfold failing_query.
  destruct m as [|[p|p|]|p]; cbn [selected_screen];
    try (simpl; discriminate).
  - rewrite screen_info_calls. flushed_case.
  - destruct p as [p|p|]; try (simpl; discriminate).
    rewrite screen_page2_calls. flushed_case.
  - rewrite screen_page1_calls. flushed_case.
Qed.

(** X8: a screen reaches the panel whole or not at all: if the block of a
    screen flushes its canvas to the device, then the three text rows of
    that screen were drawn without an error, every query of the screen
    answered and the block ends normally; a row that fails to draw leaves
    the canvas unflushed.  This holds for each of the three blocks by
    itself, whatever else the pass does. *)
Theorem flush_only_after_three_rows (w : world) (g : globals) :
  (existsb is_flush (calls (screen_info w g)) = true ->
   List.length (filter is_text (calls (screen_info w g))) = 3%nat /\
   texts_ok w (calls (screen_info w g)) = true /\
   how (screen_info w g) = Normal tt) /\
  (existsb is_flush (calls (screen_page1 w g)) = true ->
   List.length (filter is_text (calls (screen_page1 w g))) = 3%nat /\
   texts_ok w (calls (screen_page1 w g)) = true /\
   how (screen_page1 w g) = Normal tt) /\
  (existsb is_flush (calls (screen_page2 w g)) = true ->
   List.length (filter is_text (calls (screen_page2 w g))) = 3%nat /\
   texts_ok w (calls (screen_page2 w g)) = true /\
   how (screen_page2 w g) = Normal tt).
Proof.
  split; [|split]; intros Hf.
  - destruct (flushed_screen w 0 g Hf) as (H3 & Ht & Hq).
    split; [exact H3 | split; [exact Ht|]].
    rewrite (proj1 (screen_info_how w g)). cbn [selected_screen] in Hq.
    rewrite Hq. reflexivity.
  - destruct (flushed_screen w 1 g Hf) as (H3 & Ht & Hq).
    split; [exact H3 | split; [exact Ht|]].
    rewrite (proj1 (screen_page1_how w g)). rewrite Hq. reflexivity.
  - destruct (flushed_screen w 2 g Hf) as (H3 & Ht & _).
    split; [exact H3 | split; [exact Ht|]].
    apply screen_page2_how.
Qed.

(** With everything working, the Info block flushes three rows. *)
Lemma flush_only_after_three_rows_witness :
  List.length
    (filter is_text
       (calls (screen_info fair_world (mkGlobals false (at_epoch 0) 0 0))))
  = 3%nat.
Proof.
  apply (proj1 (flush_only_after_three_rows fair_world
                  (mkGlobals false (at_epoch 0) 0 0))).
  vm_compute. reflexivity.
Defined.









(** ** One rendering per second, and what a press changes *)

Lemma display_step_last_second (w : world) (ts ta : Q) (g : globals) :
  last_second (store (display_step w ts ta g)) = py_int (ts - disp_timer g) /\
  disp_timer (store (display_step w ts ta g)) = disp_timer g.
Proof.
  destruct (display_step_cases w ts ta g)
    as [[E H]|[(_ & _ & H)|(_ & _ & H)]]; rewrite H.
  - split; [symmetry; exact E | reflexivity].
  - destruct (active_branch_selected w
                (set_last_second (py_int (ts - disp_timer g)) g))
      as (_ & _ & Hs).
    rewrite Hs. split; reflexivity.
  - split; reflexivity.
Qed.

Lemma py_int_first_second (x : Q) : (0 <= x)%Q -> (x < 1)%Q -> py_int x = 0.
Proof.
  intros H0 H1. rewrite (py_int_floor _ H0).
  pose proof (Qfloor_resp_le 0 x H0) as Hlo. change (Qfloor 0) with 0 in Hlo.
  pose proof (Qfloor_le x) as Hle.
  assert (Hlt : (inject_Z (Qfloor x) < inject_Z 1)%Q)
    by (apply Qle_lt_trans with x; assumption).
  rewrite <- Zlt_Qlt in Hlt. lia.
Qed.

(** X12: the display is touched at most once per whole second of elapsed
    time: after a pass, however its display step ended, a later pass
    within the same whole second (and with no press in between) makes no
    display call and no query, whatever the world then looks like. *)
Theorem display_step_once_per_second
  (w w' : world) (ts ta ts' ta' : Q) (g : globals) :
  py_int (ts' - disp_timer g) = py_int (ts - disp_timer g) ->
  let g1 := store (display_step w ts ta g) in
  display_step w' ts' ta' g1 = mkOutcome [] g1 (Normal tt).
Proof.
  intros H. cbv zeta.
  destruct (display_step_last_second w ts ta g) as [Hl Ht].
  apply display_step_same_second. rewrite Ht, Hl. exact H.
Qed.

(** Two passes 0.2 s apart in the fifth second: the second pass is idle. *)
Lemma display_step_once_per_second_witness :
  calls (display_step fair_world (at_epoch 5400) (at_epoch 5400)
           (store (display_step fair_world (at_epoch 5200) (at_epoch 5200)
                     (mkGlobals false (at_epoch 0) 0 4)))) = [].
Proof.
  rewrite (display_step_once_per_second fair_world fair_world
             (at_epoch 5200) (at_epoch 5200) (at_epoch 5400) (at_epoch 5400)
             (mkGlobals false (at_epoch 0) 0 4) ltac:(qcmp)).
  reflexivity.
Defined.

Lemma btn_press_stamp (pc : press_clock) (g : globals) :
  disp_timer (store (btn_press pc g)) = t_stamp pc /\
  last_second (store (btn_press pc g)) = last_second g.
Proof.
  destruct (Qlt_le_dec (t_check pc - disp_timer g) DISP_TIMEOUT) as [H|H].
  - rewrite (btn_press_awake _ _ H). simpl.
    destruct (menu_state g + 1 =? 3); split; reflexivity.
  - rewrite (btn_press_timeout _ _ H). split; reflexivity.
Qed.

(** X13: a press does not redraw by itself, it only restarts the count of
    seconds: the passes of the first second after a press draw the new
    screen at once unless the last rendering was itself made in second 0
    (the press came less than a second after the previous one); in that
    case they do nothing and the new screen appears only a full second
    after the press. *)
Theorem redraw_after_press
  (w : world) (pc : press_clock) (ts ta : Q) (g : globals) :
  (0 <= ts - t_stamp pc)%Q -> (ts - t_stamp pc < 1)%Q ->
  let r := display_step w ts ta (store (btn_press pc g)) in
  (last_second g = 0 -> calls r = []) /\
  (last_second g <> 0 -> (ta - t_stamp pc < DISP_TIMEOUT)%Q ->
   In disp_show (calls r)) /\
  (forall w' ts' ta',
     (1 <= ts' - t_stamp pc)%Q -> (ta' - t_stamp pc < DISP_TIMEOUT)%Q ->
     last_second g = 0 ->
     In disp_show (calls (display_step w' ts' ta' (store r)))).
Proof.
  intros H0 H1. cbv zeta.
  destruct (btn_press_stamp pc g) as [Ht Hl].
  set (g' := store (btn_press pc g)) in *.
  assert (Hs : py_int (ts - disp_timer g') = 0)
    by (rewrite Ht; apply py_int_first_second; assumption).
  split; [|split].
  - intros E. rewrite display_step_same_second; [reflexivity|].
    rewrite Hs, Hl. symmetry. exact E.
  - intros E Ha. rewrite display_step_new_second by (rewrite Hs, Hl; auto).
    rewrite Ht. apply Qlt_bool_iff in Ha. rewrite Ha.
    apply active_branch_shows.
  - intros w' ts' ta' H1' Ha' E.
    destruct (display_step_last_second w ts ta g') as [Hl' Ht'].
    rewrite display_step_new_second.
    + rewrite Ht', Ht. apply Qlt_bool_iff in Ha'. rewrite Ha'.
      apply active_branch_shows.
    + rewrite Ht', Hl', Hs, Ht.
      assert (P : (0 <= ts' - t_stamp pc)%Q)
        by (apply Qle_trans with 1%Q; [discriminate | exact H1']).
      rewrite (py_int_floor _ P).
      pose proof (Qfloor_resp_le 1 _ H1') as Hf.
      change (Qfloor 1) with 1 in Hf. lia.
Qed.

(** Two presses 0.4 s apart, a rendering in between: the pass 0.2 s after
    the second press draws nothing. *)
Lemma redraw_after_press_witness :
  calls (display_step fair_world (at_epoch 600) (at_epoch 600)
           (store (btn_press (mkPress (at_epoch 400) (at_epoch 400))
                     (mkGlobals false (at_epoch 0) 1 0)))) = [].
Proof.
  apply (proj1 (redraw_after_press fair_world
                  (mkPress (at_epoch 400) (at_epoch 400))
                  (at_epoch 600) (at_epoch 600)
                  (mkGlobals false (at_epoch 0) 1 0)
                  ltac:(qcmp) ltac:(qcmp))).
  reflexivity.
Defined.

(** X14: waking up: a press that comes 15 s or more after [disp_timer],
    while the loop has been clearing the display, is followed at the next
    pass by [disp.show()] and, display and queries permitting, by the
    rendering of the Info screen, whatever screen was selected before. *)
Theorem wake_up_press_shows_info
  (w : world) (pc : press_clock) (ts ta : Q) (g : globals) :
  (DISP_TIMEOUT <= t_check pc - disp_timer g)%Q ->
  last_second g <> 0 ->
  (0 <= ts - t_stamp pc)%Q -> (ts - t_stamp pc < 1)%Q ->
  (ta - t_stamp pc < DISP_TIMEOUT)%Q ->
  let r := display_step w ts ta (store (btn_press pc g)) in
  In disp_show (calls r) /\
  (answers w 0 -> screen_rendered (calls r) = Some 0).
Proof.
  intros Hc Hl H0 H1 Ha. cbv zeta.
  pose proof (btn_press_timeout _ _ Hc) as Hp. rewrite Hp. cbn [store].
  set (g' := set_disp_timer (t_stamp pc) (set_menu_state 0 g)).
  assert (Hs : py_int (ts - disp_timer g') = 0)
    by (apply py_int_first_second; assumption).
  rewrite display_step_new_second by (rewrite Hs; cbn; auto).
  apply Qlt_bool_iff in Ha. cbn [disp_timer g' set_disp_timer]. rewrite Ha.
  split; [apply active_branch_shows|].
  intros Hans. apply active_branch_renders; [cbn; lia | exact Hans].
Qed.

(** Asleep on Page 2 for 40 s: a press, and the next pass renders Info. *)
Lemma wake_up_press_shows_info_witness :
  screen_rendered
    (calls (display_step fair_world (at_epoch 40100) (at_epoch 40100)
              (store (btn_press (mkPress (at_epoch 40000) (at_epoch 40000))
                        (mkGlobals true (at_epoch 0) 2 39))))) = Some 0.
Proof.
  apply (proj2 (wake_up_press_shows_info fair_world
                  (mkPress (at_epoch 40000) (at_epoch 40000))
                  (at_epoch 40100) (at_epoch 40100)
                  (mkGlobals true (at_epoch 0) 2 39)
                  ltac:(qcmp) ltac:(discriminate) ltac:(qcmp) ltac:(qcmp)
                  ltac:(qcmp))).
  split; [reflexivity|]. exists "pi"%string, "192.168.1.20"%string.
  repeat split; discriminate.
Defined.

(** ** The LED line *)








Lemma crashed_stays (e : exn) (evs : list sys_event) :
  forall s,
    sys_main s = Crashed e -> only_passes evs -> run evs s = s.
Proof.
  induction evs as [|ev evs IH]; intros s Hs Hall; [reflexivity|].
  inversion Hall as [|x l Hev Hrest]; subst. rewrite run_cons.
  destruct ev as [pc|w clk]; [discriminate Hev|]. cbn [sys_step].
  rewrite main_pass_over by (rewrite Hs; discriminate).
  apply IH; assumption.
Qed.

(** X16: the write to the LED line is not guarded: when it raises, the
    pass ends at once with that error, after [LED_state] has already been
    inverted and before the display is touched, and the foreground loop
    is over; no other call of a pass can raise a GPIO error. *)
Theorem led_write_failure_ends_loop
  (w : world) (clk : loop_clock) (g : globals) :
  (gpio_ok w = false ->
   Z.b2z (LED_state g) <> py_int (t_led clk) mod 2 ->
   loop_body w clk g =
   mkOutcome [set_line_value LED_PIN (negb (LED_state g))]
     (set_LED_state (negb (LED_state g)) g) (Abrupt (Raised GpioError)) /\
   (forall log evs,
      only_passes evs ->
      run evs (main_pass w clk (mkSystem g log Looping)) =
      mkSystem (set_LED_state (negb (LED_state g)) g)
        (log ++ [set_line_value LED_PIN (negb (LED_state g))])
        (Crashed GpioError))) /\
  (how (loop_body w clk g) = Abrupt (Raised GpioError) ->
   gpio_ok w = false /\ Z.b2z (LED_state g) <> py_int (t_led clk) mod 2).
Proof.
  split.
  - intros Hg Hf. apply Z.eqb_neq in Hf.
    assert (Hl : led_step w (t_led clk) g =
                 mkOutcome [set_line_value LED_PIN (negb (LED_state g))]
                   (set_LED_state (negb (LED_state g)) g)
                   (Abrupt (Raised GpioError))).
    { unfold led_step, bind, read, when, assign, extern. simpl.
      rewrite Hf, Hg. reflexivity. }
    assert (Hb : loop_body w clk g =
                 mkOutcome [set_line_value LED_PIN (negb (LED_state g))]
                   (set_LED_state (negb (LED_state g)) g)
                   (Abrupt (Raised GpioError))).
    { unfold loop_body. unfold bind at 1. rewrite Hl. reflexivity. }
    split; [exact Hb|].
    intros log evs Hall.
    assert (Hp : main_pass w clk (mkSystem g log Looping) =
                 mkSystem (set_LED_state (negb (LED_state g)) g)
                   (log ++ [set_line_value LED_PIN (negb (LED_state g))])
                   (Crashed GpioError)).
    { unfold main_pass. cbn [sys_main sys_globals sys_log loop_condition].
      rewrite Hb. reflexivity. }
    rewrite Hp. apply (crashed_stays GpioError); [reflexivity | exact Hall].
  - rewrite loop_body_how. intros H.
    destruct (how (led_step w (t_led clk) g)) as [[]|s] eqn:E.
    + destruct (display_step_how w (t_second clk) (t_active clk)
                  (store (led_step w (t_led clk) g))) as [Hn|(q & Hq & _)];
        rewrite H in *; discriminate.
    + destruct (gpio_ok w) eqn:Hg;
        [rewrite (led_step_how w _ g Hg) in E; discriminate E|].
      split; [reflexivity|]. intros Heq. apply Z.eqb_eq in Heq.
      revert E. unfold led_step, bind, read, when. simpl. rewrite Heq.
      discriminate.
Qed.

(** The line is busy at an odd second with the LED off: the pass ends
    with the GPIO error after one call. *)
Lemma led_write_failure_ends_loop_witness :
  calls (loop_body (mkWorld (fun _ => true) false None None
                      (fun _ => None) None None None None None)
           (mkClock (at_epoch 1000) (at_epoch 1000) (at_epoch 1000))
           (mkGlobals false (at_epoch 0) 0 0)) =
  [set_line_value LED_PIN true].
Proof.
  rewrite (proj1 (proj1 (led_write_failure_ends_loop
                           (mkWorld (fun _ => true) false None None
                              (fun _ => None) None None None None None)
                           (mkClock (at_epoch 1000) (at_epoch 1000)
                              (at_epoch 1000))
                           (mkGlobals false (at_epoch 0) 0 0))
                    eq_refl ltac:(vm_compute; discriminate))).
  reflexivity.
Defined.

(** ** Start-up *)

Lemma startup_outcome (w : world) (g : globals) :
  forallb (display_ok w) startup_display_calls = true ->
  startup w g =
  mkOutcome (startup_display_calls ++ [sleep 3; disp_clear])
    (set_last_second (-1) g) (Normal tt).
Proof.
  unfold startup_display_calls. cbn [forallb]. rewrite !andb_true_iff.
  intros (H1 & H2 & H3 & H4 & H5 & _). unfold startup.
  do 5 step_by ltac:(unfold disp; rewrite ?H1, ?H2, ?H3, ?H4, ?H5).
  step_by idtac.
  step_by ltac:(unfold disp; rewrite ?H1).
  reflexivity.
Qed.

Lemma startup_failure (w : world) (g : globals) :
  forallb (display_ok w) startup_display_calls = false ->
  how (startup w g) = Abrupt (Raised DisplayError).
Proof.
  unfold startup_display_calls. cbn [forallb]. rewrite andb_true_r.
  intros H. unfold startup. rewrite !disp_then_how.
  destruct (display_ok w disp_clear); [|reflexivity].
  destruct (display_ok w canvas_enter); [|reflexivity].
  destruct (display_ok w draw_rectangle); [|reflexivity].
  destruct (display_ok w (draw_text 11 9 "Infoscreen Started"));
    [|reflexivity].
  destruct (display_ok w canvas_flush); [discriminate H | reflexivity].
Qed.

(** X17: the display calls of start-up are not guarded, unlike those of
    the loop: when they all succeed the script shows the banner, sleeps
    3 s, clears the display and enters the loop with [last_second = -1];
    when one of them raises, the script dies with that error before the
    loop starts, and no pass ever runs. *)
Theorem startup_display_failure_is_fatal (w : world) :
  (forallb (display_ok w) startup_display_calls = true ->
   boot w =
   mkSystem initial_globals
     (startup_display_calls ++ [sleep 3; disp_clear]) Looping) /\
  (forallb (display_ok w) startup_display_calls = false ->
   sys_main (boot w) = Crashed DisplayError /\
   (forall evs, only_passes evs -> run evs (boot w) = boot w)).
Proof.
  split.
  - intros H. unfold boot.
    rewrite (startup_outcome w initial_globals H). reflexivity.
  - intros H.
    assert (Hc : sys_main (boot w) = Crashed DisplayError).
    { unfold boot. cbn [sys_main].
      rewrite (startup_failure w initial_globals H). reflexivity. }
    split; [exact Hc|].
    intros evs Hall. apply (crashed_stays DisplayError); assumption.
Qed.

(** The panel does not answer at start-up: the script is over. *)
Lemma startup_display_failure_is_fatal_witness :
  sys_main (boot dead_display) = Crashed DisplayError.
Proof.
  apply (proj2 (startup_display_failure_is_fatal dead_display)).
  reflexivity.
Defined.

(** ** A pass with a failing display, and the pass after it *)

Lemma store_bind {A B} (m : M A) (k : A -> M B) (g : globals) :
  store (bind m k g) =
  match how (m g) with
  | Normal a => store (k a (store (m g)))
  | Abrupt _ => store (m g)
  end.
Proof. unfold bind. destruct (how (m g)); reflexivity. Qed.

Lemma loop_body_after_led (w : world) (clk : loop_clock) (g : globals) :
  gpio_ok w = true ->
  let g1 := store (led_step w (t_led clk) g) in
  let d := display_step w (t_second clk) (t_active clk) g1 in
  how (loop_body w clk g) = how d /\
  (forall c, In c (calls d) -> In c (calls (loop_body w clk g))) /\
  last_second (store (loop_body w clk g)) =
  py_int (t_second clk - disp_timer g) /\
  (disp_timer g1 = disp_timer g /\ last_second g1 = last_second g /\
   menu_state g1 = menu_state g).
Proof.
  intros Hg. cbv zeta.
  set (g1 := store (led_step w (t_led clk) g)).
  assert (Kt : disp_timer g1 = disp_timer g)
    by (apply led_step_keeps; reflexivity).
  assert (Kl : last_second g1 = last_second g)
    by (apply led_step_keeps; reflexivity).
  assert (Km : menu_state g1 = menu_state g)
    by (apply led_step_keeps; reflexivity).
  split; [|split; [|split; [|repeat split; assumption]]].
  - rewrite loop_body_how, (led_step_how w _ g Hg). reflexivity.
  - intros c Hin. rewrite loop_body_calls, (led_step_how w _ g Hg).
    fold g1. apply in_or_app. right. apply in_or_app. left. exact Hin.
  - unfold loop_body. rewrite store_bind, (led_step_how w _ g Hg).
    fold g1. rewrite store_bind.
    destruct (display_step_last_second w (t_second clk) (t_active clk) g1)
      as [Hl _].
    destruct (how (display_step w (t_second clk) (t_active clk) g1));
      cbn [note store]; rewrite Hl, Kt; reflexivity.
Qed.

Lemma pass_completes (w : world) (clk : loop_clock) (g : globals) :
  gpio_ok w = true -> failing_query w (menu_state g) = None ->
  how (loop_body w clk g) = Normal tt.
Proof.
  intros Hg Hq.
  destruct (loop_body_after_led w clk g Hg) as (Hh & _ & _ & _ & _ & Km).
  rewrite Hh.
  destruct (display_step_how w (t_second clk) (t_active clk)
              (store (led_step w (t_led clk) g))) as [H|(q & _ & F)];
    [exact H | rewrite Km, Hq in F; discriminate F].
Qed.

Lemma pass_attempts (w : world) (clk : loop_clock) (g : globals) :
  gpio_ok w = true ->
  py_int (t_second clk - disp_timer g) <> last_second g ->
  ((t_active clk - disp_timer g < DISP_TIMEOUT)%Q ->
   In disp_show (calls (loop_body w clk g)) /\
   (0 <= menu_state g <= 2 -> failing_query w (menu_state g) = None ->
    In canvas_enter (calls (loop_body w clk g)))) /\
  (~ (t_active clk - disp_timer g < DISP_TIMEOUT)%Q ->
   In disp_clear (calls (loop_body w clk g))).
Proof.
  intros Hg Hnew.
  destruct (loop_body_after_led w clk g Hg)
    as (_ & Hin & _ & Kt & Kl & Km).
  set (g1 := store (led_step w (t_led clk) g)) in *.
  assert (Hd : display_step w (t_second clk) (t_active clk) g1 =
               (if Qlt_bool (t_active clk - disp_timer g) DISP_TIMEOUT
                then active_branch w else idle_branch w)
                 (set_last_second (py_int (t_second clk - disp_timer g)) g1)).
  { rewrite display_step_new_second by (rewrite Kt, Kl; exact Hnew).
    rewrite Kt. reflexivity. }
  split.
  - intros Ha. apply Qlt_bool_iff in Ha. rewrite Ha in Hd. split.
    + apply Hin. rewrite Hd. apply active_branch_shows.
    + intros Hr F. apply Hin. rewrite Hd.
      apply active_branch_enters_canvas; cbn [menu_state set_last_second];
        rewrite Km; assumption.
  - intros Hn.
    assert (E : Qlt_bool (t_active clk - disp_timer g) DISP_TIMEOUT = false).
    { destruct (Qlt_bool (t_active clk - disp_timer g) DISP_TIMEOUT) eqn:E;
        [|reflexivity].
      apply Qlt_bool_iff in E. contradiction. }
    rewrite E in Hd. apply Hin. rewrite Hd, idle_branch_calls.
    left. reflexivity.
Qed.

(** C6: no exception of a display call (draw, show, hide, clear, flush)
    leaves the body of the loop, and whether and which display calls fail
    changes neither the globals after the pass nor the way the pass ends.
    A pass on a new second makes its display calls ([disp.show()] and the
    canvas of the selected screen while active, [disp.clear()] once timed
    out) and, whichever of them fail, ends normally (as long as the LED
    write and the queries do not raise).  The loop then goes on, and its
    pass of the next whole second makes these calls again. *)
Theorem display_failures_are_swallowed
  (w : world) (clk : loop_clock) (g : globals) :
  how (loop_body w clk g) <> Abrupt (Raised DisplayError) /\
  (forall ok : call -> bool,
     store (loop_body (with_display ok w) clk g) = store (loop_body w clk g) /\
     how (loop_body (with_display ok w) clk g) = how (loop_body w clk g)) /\
  (forall (w2 : world) (ts ta : Q),
     let g1 := store (loop_body w clk g) in
     let r2 := display_step w2 ts ta g1 in
     py_int (ts - disp_timer g1) <> last_second g1 ->
     ((ta - disp_timer g1 < DISP_TIMEOUT)%Q ->
      In disp_show (calls r2) /\
      (0 <= menu_state g1 <= 2 ->
       failing_query w2 (menu_state g1) = None ->
       In canvas_enter (calls r2))) /\
     (~ (ta - disp_timer g1 < DISP_TIMEOUT)%Q -> In disp_clear (calls r2))) /\
  (gpio_ok w = true -> failing_query w (menu_state g) = None ->
   how (loop_body w clk g) = Normal tt /\
   (py_int (t_second clk - disp_timer g) <> last_second g ->
    ((t_active clk - disp_timer g < DISP_TIMEOUT)%Q ->
     In disp_show (calls (loop_body w clk g)) /\
     (0 <= menu_state g <= 2 ->
      In canvas_enter (calls (loop_body w clk g)))) /\
    (~ (t_active clk - disp_timer g < DISP_TIMEOUT)%Q ->
     In disp_clear (calls (loop_body w clk g))))) /\
  (forall (w2 : world) (clk2 : loop_clock) (log : list call),
     gpio_ok w = true -> gpio_ok w2 = true ->
     failing_query w (menu_state g) = None ->
     failing_query w2 (menu_state g) = None ->
     let r1 := loop_body w clk g in
     let r2 := loop_body w2 clk2 (store r1) in
     run [pass w clk; pass w2 clk2] (mkSystem g log Looping) =
     mkSystem (store r2) (log ++ calls r1 ++ calls r2) Looping /\
     (py_int (t_second clk2 - disp_timer g)
      <> py_int (t_second clk - disp_timer g) ->
      ((t_active clk2 - disp_timer g < DISP_TIMEOUT)%Q ->
       In disp_show (calls r2) /\
       (0 <= menu_state g <= 2 -> In canvas_enter (calls r2))) /\
      (~ (t_active clk2 - disp_timer g < DISP_TIMEOUT)%Q ->
       In disp_clear (calls r2)))).
Proof.
  split; [|split; [|split; [|split]]].
  - intros H. apply (loop_body_no_display_error w clk g) in H.
    discriminate H.
  - intros ok. apply loop_body_display_independent.
  - intros w2 ts ta g1 r2 Hnew. subst r2.
    rewrite (display_step_new_second w2 ts ta g1 Hnew).
    destruct (Qlt_bool (ta - disp_timer g1) DISP_TIMEOUT) eqn:E.
    + apply Qlt_bool_iff in E. split; [|intros Hn; contradiction].
      intros _. split; [apply active_branch_shows|].
      intros Hr F. apply active_branch_enters_canvas; assumption.
    + apply Qlt_bool_false_iff in E. split.
      * intros Hlt. exfalso. exact (Qlt_not_le _ _ Hlt E).
      * intros _. rewrite idle_branch_calls. left. reflexivity.
  - intros Hg Hq. split; [apply pass_completes; assumption|].
    intros Hnew. destruct (pass_attempts w clk g Hg Hnew) as [Ha Hi].
    split; [|exact Hi].
    intros Hact. destruct (Ha Hact) as [H1 H2].
    split; [exact H1 | intros Hr; apply H2; assumption].
  - intros w2 clk2 log Hg Hg2 Hq Hq2. cbv zeta.
    set (g1 := store (loop_body w clk g)).
    assert (Km : menu_state g1 = menu_state g)
      by (apply loop_body_keeps; reflexivity).
    assert (Kt : disp_timer g1 = disp_timer g)
      by (apply loop_body_keeps; reflexivity).
    assert (Kl : last_second g1 = py_int (t_second clk - disp_timer g))
      by (apply (loop_body_after_led w clk g Hg)).
    pose proof (pass_completes w clk g Hg Hq) as Hn1.
    assert (Hn2 : how (loop_body w2 clk2 g1) = Normal tt)
      by (apply pass_completes; [exact Hg2 | rewrite Km; exact Hq2]).
    split.
    + unfold run. cbn [fold_left sys_step]. unfold main_pass at 2.
      cbn [sys_main sys_globals sys_log loop_condition]. rewrite Hn1.
      unfold main_pass.
      cbn [sys_main sys_globals sys_log loop_condition]. fold g1.
      rewrite Hn2, <- app_assoc. reflexivity.
    + intros Hnext.
      assert (Hnew : py_int (t_second clk2 - disp_timer g1)
                     <> last_second g1) by (rewrite Kt, Kl; exact Hnext).
      destruct (pass_attempts w2 clk2 g1 Hg2 Hnew) as [Ha Hi].
      rewrite Kt, Km in Ha. rewrite Kt in Hi. split; [|exact Hi].
      intros Hact. destruct (Ha Hact) as [H1 H2].
      split; [exact H1 | intros Hr; apply H2; assumption].
Qed.

(** The display fails on every call.  The pass at 5 s on Page 1 calls
    [disp.show()] and ends normally; the loop is still going after the
    pass at 6 s, which calls [disp.show()] and opens the canvas again. *)
Lemma display_failures_are_swallowed_witness :
  let g := mkGlobals false (at_epoch 0) 1 4 in
  let clk := mkClock (at_epoch 5000) (at_epoch 5000) (at_epoch 5000) in
  let clk2 := mkClock (at_epoch 6000) (at_epoch 6000) (at_epoch 6000) in
  let r1 := loop_body dead_display clk g in
  let r2 := loop_body dead_display clk2 (store r1) in
  (how r1 = Normal tt /\ In disp_show (calls r1)) /\
  sys_main (run [pass dead_display clk; pass dead_display clk2]
              (mkSystem g [] Looping)) = Looping /\
  In disp_show (calls r2) /\ In canvas_enter (calls r2).
Proof.
  cbv zeta.
  pose proof (display_failures_are_swallowed dead_display
                (mkClock (at_epoch 5000) (at_epoch 5000) (at_epoch 5000))
                (mkGlobals false (at_epoch 0) 1 4)) as (_ & _ & _ & H4 & H5).
  destruct (H4 eq_refl eq_refl) as [Hn Hc].
  destruct (Hc ltac:(qcmp)) as [Ha _].
  destruct (Ha ltac:(qcmp)) as [Hs _].
  split; [split; assumption|].
  destruct (H5 dead_display
              (mkClock (at_epoch 6000) (at_epoch 6000) (at_epoch 6000)) []
              eq_refl eq_refl eq_refl eq_refl) as [Hrun Hretry].
  cbv zeta in Hrun, Hretry. rewrite Hrun.
  split; [reflexivity|].
  destruct (Hretry ltac:(qcmp)) as [Hb _].
  destruct (Hb ltac:(qcmp)) as [Hs2 He2].
  split; [exact Hs2 | apply He2; cbn; lia].
Defined.

(** ** Presses that land while a pass is rendering *)

Lemma bind_ext {A B} (m : M A) (k1 k2 : A -> M B) (g : globals) :
  (forall a h, k1 a h = k2 a h) -> bind m k1 g = bind m k2 g.
Proof.
  intros H. unfold bind. destruct (how (m g)); [|reflexivity].
  rewrite H. reflexivity.
Qed.

Lemma watcher_runs_outcome (pcs : list press_clock) :
  forall g, watcher_runs pcs g = mkOutcome [] (press_all pcs g) (Normal tt).
Proof.
  induction pcs as [|pc pcs IH]; intros g; [reflexivity|].
  cbn [watcher_runs].
  destruct (btn_press_normal pc g) as [Hh Hc].
  assert (Hb : btn_press pc g =
               mkOutcome [] (store (btn_press pc g)) (Normal tt)).
  { destruct (btn_press pc g) as [cs st h]. cbn [how calls store] in *.
    rewrite Hh, Hc. reflexivity. }
  rewrite (bind_silent _ _ _ _ _ Hb), IH, press_all_cons. reflexivity.
Qed.

Lemma when_screen_then {B} (b : bool) (screen : M unit) (k : M B)
  (g : globals) :
  how (screen g) = Normal tt -> store (screen g) = g ->
  (when b screen ;; k) g =
  mkOutcome ((if b then calls (screen g) else []) ++ calls (k g))
    (store (k g)) (how (k g)).
Proof.
  intros Hh Hs.
  apply (bind_after_normal (when b screen) (fun _ => k) g
           (if b then calls (screen g) else []) g tt).
  destruct b; cbn [when]; [|reflexivity].
  destruct (screen g) as [cs st h]. cbn [how calls store] in *.
  rewrite Hh, Hs. reflexivity.
Qed.

Lemma screen_enters_once (w : world) (g : globals) :
  (failing_query w 0 = None ->
   filter is_enter (calls (screen_info w g)) = [canvas_enter]) /\
  (failing_query w 1 = None ->
   filter is_enter (calls (screen_page1 w g)) = [canvas_enter]) /\
  filter is_enter (calls (screen_page2 w g)) = [canvas_enter].
Proof.
  unfold failing_query. split; [|split].
  - rewrite screen_info_calls. split_cases;
      cbn [app hd_error unanswered filter is_enter];
      try discriminate; reflexivity.
  - rewrite screen_page1_calls. split_cases;
      cbn [app hd_error unanswered filter is_enter];
      try discriminate; reflexivity.
  - rewrite screen_page2_calls. split_cases; reflexivity.
Qed.

Lemma racing_outcome (w : world)
  (before during_info during_page1 : list press_clock) (g : globals) :
  (forall m, failing_query w m = None) ->
  let g0 := press_all before g in
  let g1 := press_all during_info g0 in
  let g2 := press_all during_page1 g1 in
  active_branch_racing w before during_info during_page1 g =
  mkOutcome
    (disp_show ::
     (if menu_state g0 =? 0 then calls (screen_info w g1) else []) ++
     (if menu_state g1 =? 1 then calls (screen_page1 w g2) else []) ++
     (if menu_state g2 =? 2 then calls (screen_page2 w g2) else []))
    g2 (Normal tt).
Proof.
  intros Hq. cbv zeta. unfold active_branch_racing.
  set (g0 := press_all before g).
  set (g1 := press_all during_info g0).
  set (g2 := press_all during_page1 g1).
  assert (H0 : forall h, how (screen_info w h) = Normal tt).
  { intros h. rewrite (proj1 (screen_info_how w h)), Hq. reflexivity. }
  assert (H1 : forall h, how (screen_page1 w h) = Normal tt).
  { intros h. rewrite (proj1 (screen_page1_how w h)), Hq. reflexivity. }
  rewrite (bind_after_normal _ _ _ _ _ _ (try_show w g)).
  rewrite (bind_silent _ _ _ _ _ (watcher_runs_outcome before g)). fold g0.
  rewrite (bind_silent _ _ g0 g0 (menu_state g0) eq_refl).
  rewrite (bind_silent _ _ _ _ _ (watcher_runs_outcome during_info g0)).
  fold g1.
  rewrite (when_screen_then _ _ _ g1 (H0 g1) (screen_info_pure w g1)).
  rewrite (bind_silent _ _ g1 g1 (menu_state g1) eq_refl).
  rewrite (bind_silent _ _ _ _ _ (watcher_runs_outcome during_page1 g1)).
  fold g2.
  rewrite (when_screen_then _ _ _ g2 (H1 g2) (screen_page1_pure w g2)).
  rewrite (bind_silent _ _ g2 g2 (menu_state g2) eq_refl).
  cbn [calls store how app].
  assert (H2 : when (menu_state g2 =? 2) (screen_page2 w) g2 =
               mkOutcome
                 (if menu_state g2 =? 2 then calls (screen_page2 w g2)
                  else []) g2 (Normal tt)).
  { destruct (menu_state g2 =? 2); cbn [when]; [|reflexivity].
    pose proof (screen_page2_how w g2) as Hh.
    pose proof (screen_page2_pure w g2) as Hs. cbv beta in Hs.
    destruct (screen_page2 w g2) as [cs st h]. cbn [how calls store] in *.
    rewrite Hh, Hs. reflexivity. }
  rewrite H2. reflexivity.
Qed.

(** X7: each of the three tests on [menu_state] selects by the value the
    variable has at the moment of that test.  With no press while a pass
    is rendering, the tests act as a switch: the pass is [active_branch],
    the code of one screen.  With presses handled by the watcher thread in
    between, the pass runs (queries answering) the Info block if
    [menu_state] was 0 at the first test, then the Page 1 block if it was
    1 at the second, then the Page 2 block if it was 2 at the third; so a
    press within the timeout that lands while Info is being rendered makes
    the same pass render Page 1 too, opening the canvas twice. *)
Theorem screens_follow_menu_at_each_test
  (w : world) (before during_info during_page1 : list press_clock)
  (g : globals) :
  active_branch_racing w [] [] [] g = active_branch w g /\
  ((forall m, failing_query w m = None) ->
   let g0 := press_all before g in
   let g1 := press_all during_info g0 in
   let g2 := press_all during_page1 g1 in
   active_branch_racing w before during_info during_page1 g =
   mkOutcome
     (disp_show ::
      (if menu_state g0 =? 0 then calls (screen_info w g1) else []) ++
      (if menu_state g1 =? 1 then calls (screen_page1 w g2) else []) ++
      (if menu_state g2 =? 2 then calls (screen_page2 w g2) else []))
     g2 (Normal tt)) /\
  (forall pc : press_clock,
     (forall m, failing_query w m = None) ->
     menu_state g = 0 ->
     (t_check pc - disp_timer g < DISP_TIMEOUT)%Q ->
     filter is_enter (calls (active_branch_racing w [] [pc] [] g)) =
     [canvas_enter; canvas_enter] /\
     menu_state (store (active_branch_racing w [] [pc] [] g)) = 1).
Proof.
  split; [|split].
  - unfold active_branch_racing, active_branch. cbn [watcher_runs].
    apply bind_ext. intros _ h.
    rewrite (bind_silent _ _ h h tt eq_refl).
    apply bind_ext. intros m0 h0.
    rewrite (bind_silent _ _ h0 h0 tt eq_refl).
    apply bind_ext. intros _ h1.
    apply bind_ext. intros m1 h2.
    rewrite (bind_silent _ _ h2 h2 tt eq_refl). reflexivity.
  - intros Hq. apply racing_outcome. exact Hq.
  - intros pc Hq Hm Hc.
    rewrite (racing_outcome w [] [pc] [] g Hq).
    unfold press_all. cbn [fold_left calls store].
    rewrite Hm. cbn [Z.eqb].
    assert (Hn : menu_state (store (btn_press pc g)) = 1).
    { rewrite (btn_press_awake _ _ Hc). simpl. rewrite Hm. reflexivity. }
    rewrite Hn. cbn [Z.eqb Pos.eqb app filter is_enter].
    destruct (screen_enters_once w (store (btn_press pc g)))
      as (E0 & E1 & _).
    rewrite app_nil_r, filter_app, (E0 (Hq 0)), (E1 (Hq 1)).
    split; reflexivity.
Qed.

(** On Info, a press 0.3 s into the window lands while the Info screen is
    being rendered: the same pass opens the canvas twice and ends on
    Page 1. *)
Lemma screens_follow_menu_at_each_test_witness :
  let r := active_branch_racing fair_world []
             [mkPress (at_epoch 300) (at_epoch 300)] []
             (mkGlobals false (at_epoch 0) 0 0) in
  filter is_enter (calls r) = [canvas_enter; canvas_enter] /\
  menu_state (store r) = 1.
Proof.
  apply (proj2 (proj2 (screens_follow_menu_at_each_test fair_world [] [] []
                         (mkGlobals false (at_epoch 0) 0 0)))
           (mkPress (at_epoch 300) (at_epoch 300))).
  - intros m. destruct m as [|[p|p|]|p]; reflexivity.
  - reflexivity.
  - qcmp.
Defined.
